(** * Traffic-adaptive cellular-automaton hash: a shallow embedding

    The development follows [chaincode/traffic-light/hash/cellular_automaton.py]:
    the class [TrafficAdaptiveCA] (seeding, rule, radius and step selection,
    one generation of the automaton, digest extraction), the function
    [traffic_adaptive_hash] that composes them, and the aggregation done by
    [intersection_hash].

    Python values are represented as follows.
    - [int] is [Z]; [>>], [<<], [&], [|], [^], [%] and [//] are
      [Z.shiftr], [Z.shiftl], [Z.land], [Z.lor], [Z.lxor], [Z.modulo] and
      [Z.div] (floor division, remainder with the sign of the divisor).
    - [float] is an IEEE-754 binary64 number, [spec_float] of the standard
      library at precision 53 and maximal exponent 1024; products and
      quotients are correctly rounded.
    - [bytes] is [list byte]; [str] is [string], read as the UTF-8 encoding
      of the text, so that [encode('utf-8')] is the list of its bytes.
    - a [list] is a [list], indexed and updated through [getitem] and
      [setitem]; a raised exception is the [Raise] case of [result].
    - an object of the class is a record that its methods take and
      return; [Store] has the objects of a running program by address,
      for what a call may find of the calls before it. *)

From Stdlib Require Import ZArith QArith Qround Lia Bool.
From Stdlib Require Import Strings.String Strings.Ascii Strings.Byte.
From Stdlib Require Import DecimalString.
From Stdlib Require Import Floats.SpecFloat.
From stdpp Require Import base tactics option list list_numbers.

Local Open Scope Z_scope.

(** ** Exceptions and results *)

Inductive exn : Set :=
| ValueError
| OverflowError
| IndexError
| ZeroDivisionError.

Inductive result (A : Type) : Type :=
| Ok (a : A)
| Raise (e : exn).

Arguments Ok {A} a.
Arguments Raise {A} e.

#[global] Instance result_ret : MRet result := @Ok.
#[global] Instance result_bind : MBind result :=
  fun A B f m => match m with Ok a => f a | Raise e => Raise e end.

Definition is_ok {A} (r : result A) : Prop := exists a, r = Ok a.

(** A [for] loop whose body may raise: the accumulator is the part of the
    environment that the body assigns. *)
Fixpoint for_ {A S} (xs : list A) (body : S -> A -> result S) (s : S)
  : result S :=
  match xs with
  | [] => Ok s
  | x :: xs' => s' ← body s x; for_ xs' body s'
  end.

(** ** Python built-ins used by the source *)

Module Py.

(** [range(a, b)] *)
Definition range (a b : Z) : list Z := seqZ a (b - a).

(** [len(l)] *)
Definition len {A} (l : list A) : Z := Z.of_nat (length l).

(** [l[i]]: a negative index counts from the end. *)
Definition getitem {A} (l : list A) (i : Z) : result A :=
  let j := if i <? 0 then i + len l else i in
  if j <? 0 then Raise IndexError
  else match l !! Z.to_nat j with
       | Some x => Ok x
       | None => Raise IndexError
       end.

(** [l[i] = x] *)
Definition setitem {A} (l : list A) (i : Z) (x : A) : result (list A) :=
  let j := if i <? 0 then i + len l else i in
  if (0 <=? j) && (j <? len l) then Ok (<[Z.to_nat j := x]> l)
  else Raise IndexError.

(** [l * n] *)
Definition mul {A} (l : list A) (n : Z) : list A :=
  mjoin (replicate (Z.to_nat n) l).

(** [l[:n]] *)
Definition upto {A} (l : list A) (n : Z) : list A :=
  if n <? 0 then take (Z.to_nat (len l + n)) l else take (Z.to_nat n) l.

(** [a // b] *)
Definition floordiv (a b : Z) : result Z :=
  if b =? 0 then Raise ZeroDivisionError else Ok (a / b).

(** [a >> n] *)
Definition rshift (a n : Z) : result Z :=
  if n <? 0 then Raise ValueError else Ok (Z.shiftr a n).

(** [min(a, b)] on integers *)
Definition min (a b : Z) : Z := if b <? a then b else a.

End Py.

(** ** Bytes *)

Definition bytes := list byte.

Definition int_of_byte (b : byte) : Z := Z.of_N (Byte.to_N b).

(** The value an integer must have to be stored in a [bytes] or
    [bytearray]: outside [range(0, 256)] Python raises [ValueError]. *)
Definition byte_of_int (z : Z) : result byte :=
  if (0 <=? z) && (z <? 256) then
    match Byte.of_N (Z.to_N z) with
    | Some b => Ok b
    | None => Raise ValueError
    end
  else Raise ValueError.

(** [bytes([z])] *)
Definition bytes_of_ints (zs : list Z) : result bytes :=
  for_ zs (fun acc z => b ← byte_of_int z; Ok (acc ++ [b])) [].

(** [input_data.encode('utf-8')] *)
Definition encode_utf8 (s : string) : bytes := list_byte_of_string s.

Definition hex_digit (n : Z) : ascii :=
  ascii_of_N (Z.to_N (if n <? 10 then 48 + n else 87 + n)).

(** [b.hex()]: two lowercase hexadecimal digits per byte. *)
Fixpoint hex (bs : bytes) : string :=
  match bs with
  | [] => EmptyString
  | b :: bs' =>
      String (hex_digit (int_of_byte b / 16))
        (String (hex_digit (int_of_byte b mod 16)) (hex bs'))
  end.

(** A lowercase hexadecimal digit: [0-9] or [a-f]. *)
Definition is_lower_hex (c : ascii) : bool :=
  let n := Z.of_N (N_of_ascii c) in
  ((48 <=? n) && (n <=? 57)) || ((97 <=? n) && (n <=? 102)).

Definition hex_string (s : string) : Prop :=
  Forall (fun c => is_lower_hex c = true) (list_ascii_of_string s).

(** ** Floating-point numbers (binary64) *)

Module Float64.

Definition float := spec_float.

Definition prec : Z := 53.
Definition emax : Z := 1024.

(** [x * y], [x / y] and [x < y], [x <= y] on floats. *)
Definition mul (x y : float) : float := SFmul prec emax x y.
Definition div (x y : float) : float := SFdiv prec emax x y.
Definition ltb (x y : float) : bool := SFltb x y.
Definition leb (x y : float) : bool := SFleb x y.

(** The float nearest to an integer; every integer below [2^53] in
    magnitude is a float. *)
Definition of_Z (z : Z) : float := binary_normalize prec emax z 0 false.

(** Conversion of an [int] operand in mixed arithmetic: an integer too
    large for a float raises [OverflowError]. *)
Definition of_int (z : Z) : result float :=
  match of_Z z with
  | S754_infinity _ => Raise OverflowError
  | f => Ok f
  end.

(** [int(x)]: truncation toward zero; [nan] raises [ValueError] and an
    infinity [OverflowError]. *)
Definition to_int (x : float) : result Z :=
  match x with
  | S754_zero _ => Ok 0
  | S754_finite s m e =>
      Ok (cond_Zopp s (if 0 <=? e then Z.pos m * 2 ^ e
                       else Z.pos m / 2 ^ (- e)))
  | S754_infinity _ => Raise OverflowError
  | S754_nan => Raise ValueError
  end.

(** The literals of the source. A decimal literal denotes the float
    nearest to it, which is the correctly rounded quotient of two
    integers. *)
Definition f0_0 : float := S754_zero false.
Definition f1_0 : float := Eval vm_compute in of_Z 1.
Definition f0_3 : float := Eval vm_compute in div (of_Z 3) (of_Z 10).
Definition f0_7 : float := Eval vm_compute in div (of_Z 7) (of_Z 10).
Definition f40_0 : float := Eval vm_compute in of_Z 40.

(** The integers 255 and 64 as operands of a product with a float. *)
Definition f255 : float := Eval vm_compute in of_Z 255.
Definition f64 : float := Eval vm_compute in of_Z 64.

(** [min(a, b)] on floats: the first argument unless the second is
    smaller. *)
Definition min (a b : float) : float := if ltb b a then b else a.

(** [a / b] on integers: the float nearest to the quotient;
    [ZeroDivisionError] for [b = 0], [OverflowError] when the quotient is
    too large. *)
Definition raw_of_Z (z : Z) : float :=
  match z with
  | Z0 => S754_zero false
  | Z.pos p => S754_finite false p 0
  | Z.neg p => S754_finite true p 0
  end.

Definition truediv (a b : Z) : result float :=
  if b =? 0 then Raise ZeroDivisionError
  else match SFdiv prec emax (raw_of_Z a) (raw_of_Z b) with
       | S754_infinity _ => Raise OverflowError
       | f => Ok f
       end.

(** The real number a float stands for (0 for [nan] and the infinities,
    which the statements below exclude). *)
Definition to_Q (x : float) : Q :=
  match x with
  | S754_finite s m e =>
      if 0 <=? e then inject_Z (cond_Zopp s (Z.pos m) * 2 ^ e)
      else Qmake (cond_Zopp s (Z.pos m)) (2 ^ Z.to_pos (- e))
  | _ => 0%Q
  end.

(** A float of the binary64 format that is a number. *)
Definition is_number (x : float) : bool :=
  match x with
  | S754_nan | S754_infinity _ => false
  | _ => valid_binary prec emax x
  end.

(** [0.0 <= x <= 1.0] *)
Definition in_unit (x : float) : bool :=
  is_number x && leb f0_0 x && leb x f1_0.

End Float64.

(** ** SHA-256

    [hashlib.sha256(m).digest()], as FIPS 180-4 defines it. Words are
    integers below [2^32]. *)

Module SHA256.

Definition add32 (x y : Z) : Z := (x + y) mod 2 ^ 32.

Definition rotr (n x : Z) : Z :=
  Z.lor (Z.shiftr x n) (Z.shiftl x (32 - n) mod 2 ^ 32).

Definition Ch (x y z : Z) : Z :=
  Z.lxor (Z.land x y) (Z.land (Z.lxor x 0xffffffff) z).

Definition Maj (x y z : Z) : Z :=
  Z.lxor (Z.lxor (Z.land x y) (Z.land x z)) (Z.land y z).

Definition Sigma0 (x : Z) : Z :=
  Z.lxor (Z.lxor (rotr 2 x) (rotr 13 x)) (rotr 22 x).

Definition Sigma1 (x : Z) : Z :=
  Z.lxor (Z.lxor (rotr 6 x) (rotr 11 x)) (rotr 25 x).

Definition sigma0 (x : Z) : Z :=
  Z.lxor (Z.lxor (rotr 7 x) (rotr 18 x)) (Z.shiftr x 3).

Definition sigma1 (x : Z) : Z :=
  Z.lxor (Z.lxor (rotr 17 x) (rotr 19 x)) (Z.shiftr x 10).

(** The first 64 primes. *)
Definition primes : list Z :=
  [2; 3; 5; 7; 11; 13; 17; 19; 23; 29; 31; 37; 41; 43; 47; 53;
   59; 61; 67; 71; 73; 79; 83; 89; 97; 101; 103; 107; 109; 113; 127; 131;
   137; 139; 149; 151; 157; 163; 167; 173; 179; 181; 191; 193; 197; 199;
   211; 223; 227; 229; 233; 239; 241; 251; 257; 263; 269; 271; 277; 281;
   283; 293; 307; 311].

(** The integer cube root, bit by bit from bit [k - 1] down. *)
Fixpoint cube_root (k : nat) (n r : Z) : Z :=
  match k with
  | O => r
  | S k' =>
      let r' := r + 2 ^ Z.of_nat k' in
      cube_root k' n (if r' * r' * r' <=? n then r' else r)
  end.

(** The first 32 bits of the fractional part of the cube root, and of
    the square root, of [p]. *)
Definition frac_cube_root (p : Z) : Z := cube_root 40 (p * 2 ^ 96) 0 mod 2 ^ 32.
Definition frac_square_root (p : Z) : Z := Z.sqrt (p * 2 ^ 64) mod 2 ^ 32.

(** The round constants: from the cube roots of the first 64 primes. *)
Definition K : list Z := Eval vm_compute in frac_cube_root <$> primes.

(** The eight working words. *)
Record regs : Set := Regs { ra : Z; rb : Z; rc : Z; rd : Z;
                            re : Z; rf : Z; rg : Z; rh : Z }.

(** The initial hash value: from the square roots of the first 8
    primes. *)
Definition H0 : regs :=
  Eval vm_compute in
    Regs (frac_square_root 2) (frac_square_root 3) (frac_square_root 5)
         (frac_square_root 7) (frac_square_root 11) (frac_square_root 13)
         (frac_square_root 17) (frac_square_root 19).

(** Big-endian bytes of a word of [n] bytes, most significant first. *)
Fixpoint be_bytes (n : nat) (x : Z) : list Z :=
  match n with
  | O => []
  | S n' => Z.shiftr x (8 * Z.of_nat n') mod 256 :: be_bytes n' x
  end.

Definition be_word (bs : list Z) : Z :=
  foldl (fun acc b => acc * 256 + b) 0 bs.

(** Padding: the bit 1, zeros up to 56 modulo 64 bytes, and the length
    of the message in bits on 8 bytes. *)
Definition pad (msg : list Z) : list Z :=
  let l := Py.len msg in
  msg ++ [0x80] ++ replicate (Z.to_nat ((55 - l) mod 64)) 0
      ++ be_bytes 8 (8 * l).

(** Consecutive groups of [k] elements; [fuel] bounds their number. *)
Fixpoint chunks {A} (fuel k : nat) (l : list A) : list (list A) :=
  match fuel, l with
  | O, _ | _, [] => []
  | S fuel', _ => take k l :: chunks fuel' k (drop k l)
  end.

(** The message schedule, latest word first: from the 16 words of a block
    to [W_63 .. W_0]. *)
Definition schedule_step (ws : list Z) : list Z :=
  add32 (add32 (add32 (sigma1 (ws !!! 1%nat)) (ws !!! 6%nat))
               (sigma0 (ws !!! 14%nat))) (ws !!! 15%nat) :: ws.

Definition schedule (block : list Z) : list Z :=
  reverse (Nat.iter 48 schedule_step (reverse block)).

Definition round (r : regs) (kw : Z * Z) : regs :=
  let '(Regs a b c d e f g h) := r in
  let t1 := add32 (add32 (add32 (add32 h (Sigma1 e)) (Ch e f g)) kw.1) kw.2 in
  let t2 := add32 (Sigma0 a) (Maj a b c) in
  Regs (add32 t1 t2) a b c (add32 d t1) e f g.

Definition compress (h : regs) (block : list Z) : regs :=
  let r := foldl round h (zip K (schedule block)) in
  Regs (add32 (ra h) (ra r)) (add32 (rb h) (rb r))
       (add32 (rc h) (rc r)) (add32 (rd h) (rd r))
       (add32 (re h) (re r)) (add32 (rf h) (rf r))
       (add32 (rg h) (rg r)) (add32 (rh h) (rh r)).

Definition digest_ints (msg : list Z) : list Z :=
  let words := be_word <$> chunks (length msg + 72) 4 (pad msg) in
  let blocks := chunks (length msg + 72) 16 words in
  let '(Regs a b c d e f g h) := foldl compress H0 blocks in
  be_bytes 4 a ++ be_bytes 4 b ++ be_bytes 4 c ++ be_bytes 4 d
    ++ be_bytes 4 e ++ be_bytes 4 f ++ be_bytes 4 g ++ be_bytes 4 h.

Definition byte_of_Z (z : Z) : byte :=
  default "000"%byte (Byte.of_N (Z.to_N (z mod 256))).

(** [hashlib.sha256(data).digest()] *)
Definition digest (data : bytes) : bytes :=
  byte_of_Z <$> digest_ints (int_of_byte <$> data).

End SHA256.

(** ** The class [TrafficAdaptiveCA] *)

Module TrafficAdaptiveCA.

Record t : Type := Build {
  size : Z;
  state : list Z;
  rule : Z;
  neighborhood_radius : Z
}.

(** [self.state = st] *)
Definition set_state (self : t) (st : list Z) : t :=
  Build (size self) st (rule self) (neighborhood_radius self).

(** [__init__] *)
Definition init (size : Z) : t :=
  Build size (Py.mul [0] size) 30 1.

(** The two nested loops of [init_state] (lines 51-53 and 62-64): the
    bits of each byte, most significant first, appended to [bits]. *)
Definition append_bits (bits : list Z) (data : bytes) : list Z :=
  foldl (fun bits byte =>
           foldl (fun bits i =>
                    bits ++ [Z.land (Z.shiftr (int_of_byte byte) (7 - i)) 1])
                 bits (Py.range 0 8))
        bits data.

Definition init_state (self : t) (data : bytes) (traffic_density : Float64.float)
  : result t :=
  let bits := append_bits [] data in
  bits ←
    (if Py.len bits <? size self then
       density_seed ← Float64.to_int (Float64.mul traffic_density Float64.f255);
       seed ← bytes_of_ints [density_seed];
       let pad_generator := SHA256.digest (data ++ seed) in
       let pad_bits := append_bits [] pad_generator in
       let needed := size self - Py.len bits in
       q ← Py.floordiv needed (Py.len pad_bits);
       Ok (bits ++ Py.upto (Py.mul pad_bits (q + 1)) needed)
     else Ok bits);
  Ok (set_state self (Py.upto bits (size self))).

Definition select_traffic_rule (density : Float64.float) (signal_state : string)
  : Z :=
  if String.eqb signal_state "EMERGENCY" then 184
  else if Float64.ltb density Float64.f0_3 then
    if String.eqb signal_state "GREEN" then 30 else 90
  else if Float64.ltb density Float64.f0_7 then
    if String.eqb signal_state "YELLOW" then 110 else 90
  else
    if String.eqb signal_state "RED" then 110 else 184.

Definition adapt_neighborhood (signal_state : string) : Z :=
  if String.eqb signal_state "GREEN" then 1
  else if String.eqb signal_state "YELLOW" then 2
  else if String.eqb signal_state "RED" then 3
  else if String.eqb signal_state "EMERGENCY" then 5
  else 1.

(** Lines 166-169 of [evolve]: the cells around [i], read from
    [self.state]. *)
Definition neighborhood (self : t) (i radius : Z) : result (list Z) :=
  for_ (Py.range (- radius) (radius + 1))
       (fun neighborhood_bits offset =>
          let idx := (i + offset) `mod` size self in
          bit ← Py.getitem (state self) idx;
          Ok (neighborhood_bits ++ [bit]))
       [].

(** Lines 172-174. *)
Definition configuration (neighborhood_bits : list Z) : Z :=
  foldl (fun neighborhood_value bit =>
           Z.lor (Z.shiftl neighborhood_value 1) bit)
        0 neighborhood_bits.

(** Lines 177-185: the new value of a cell. *)
Definition apply_rule (rule radius neighborhood_value : Z) : result Z :=
  if radius =? 1 then
    v ← Py.rshift rule neighborhood_value;
    Ok (Z.land v 1)
  else
    let extended_rule := Z.lxor rule (neighborhood_value `mod` 256) in
    let bit_position := neighborhood_value `mod` 8 in
    v ← Py.rshift extended_rule bit_position;
    Ok (Z.land v 1).

(** One generation: [new_state] is a list of its own, filled cell by
    cell from [self.state], and assigned to [self.state] at the end. *)
Definition evolve (self : t) (rule radius : Z) : result t :=
  let new_state := Py.mul [0] (size self) in
  new_state ←
    for_ (Py.range 0 (size self))
         (fun new_state i =>
            neighborhood_bits ← neighborhood self i radius;
            let neighborhood_value := configuration neighborhood_bits in
            bit ← apply_rule rule radius neighborhood_value;
            Py.setitem new_state i bit)
         new_state;
  Ok (set_state self new_state).

Definition calculate_evolution_steps (density : Float64.float) (urgency : Z)
  : result Z :=
  let base_steps := 64 in
  density_factor ← Float64.to_int (Float64.mul density Float64.f64);
  let urgency_factor := urgency * 10 in
  let total_steps := base_steps + density_factor + urgency_factor in
  Ok (Py.min total_steps 256).

(** The inner loop of [get_hash]: one byte from eight cells. *)
Definition pack_byte (self : t) (i : Z) : result Z :=
  for_ (Py.range 0 8)
       (fun byte_val j =>
          let bit_idx := i * 8 + j in
          if bit_idx <? Py.len (state self) then
            bit ← Py.getitem (state self) bit_idx;
            Ok (Z.lor byte_val (Z.shiftl bit (7 - j)))
          else Ok byte_val)
       0.

Definition get_hash (self : t) (steps : Z) : result bytes :=
  let hash_bytes := replicate 32 "000"%byte in
  for_ (Py.range 0 32)
       (fun hash_bytes i =>
          byte_val ← pack_byte self i;
          b ← byte_of_int byte_val;
          Py.setitem hash_bytes i b)
       hash_bytes.

End TrafficAdaptiveCA.

(** ** The hash function *)

Definition traffic_adaptive_hash (input_data : string)
    (traffic_density : Float64.float) (signal_state : string) (urgency : Z)
  : result string :=
  let data := encode_utf8 input_data in
  let ca := TrafficAdaptiveCA.init 256 in
  ca ← TrafficAdaptiveCA.init_state ca data traffic_density;
  let rule := TrafficAdaptiveCA.select_traffic_rule traffic_density signal_state in
  let radius := TrafficAdaptiveCA.adapt_neighborhood signal_state in
  steps ← TrafficAdaptiveCA.calculate_evolution_steps traffic_density urgency;
  ca ← for_ (Py.range 0 steps)
            (fun ca _ => TrafficAdaptiveCA.evolve ca rule radius) ca;
  hash_bytes ← TrafficAdaptiveCA.get_hash ca steps;
  Ok (hex hash_bytes).

(** ** The objects of a run

    A call of [traffic_adaptive_hash] creates an automaton object (line
    277) and the methods [init_state] and [evolve] assign its attribute
    [state]. [Store] has the objects that exist in the running program,
    by address, among them those that earlier calls have left; a
    computation takes the store and returns its result, or the exception
    it raises, with the store as it leaves it. *)

Module Store.

Definition ref : Type := nat.

Definition store : Type := list TrafficAdaptiveCA.t.

Definition M (A : Type) : Type := store -> result A * store.

Definition ret {A} (a : A) : M A := fun objects => (Ok a, objects).

Definition bind {A B} (m : M A) (k : A -> M B) : M B :=
  fun objects =>
    match m objects with
    | (Ok a, objects') => k a objects'
    | (Raise e, objects') => (Raise e, objects')
    end.

#[global] Instance store_ret : MRet M := @ret.
#[global] Instance store_bind : MBind M := fun A B k m => bind m k.

(** A computation that does not touch the objects. *)
Definition lift {A} (r : result A) : M A := fun objects => (r, objects).

(** [TrafficAdaptiveCA(size)]: a new object, at an address that is not in
    use. *)
Definition new (size : Z) : M ref :=
  fun objects => (Ok (length objects), objects ++ [TrafficAdaptiveCA.init size]).

(** The object at an address that [new] has returned. *)
Definition object (objects : store) (self : ref) : TrafficAdaptiveCA.t :=
  default (TrafficAdaptiveCA.init 0) (objects !! self).

(** A call of a method that assigns attributes of [self]. The methods
    assign in their last statement: when one raises, the object is as it
    was. *)
Definition assign (self : ref)
    (method : TrafficAdaptiveCA.t -> result TrafficAdaptiveCA.t) : M unit :=
  fun objects =>
    match method (object objects self) with
    | Ok self' => (Ok tt, <[self := self']> objects)
    | Raise e => (Raise e, objects)
    end.

(** A call of a method that reads [self] only. *)
Definition read {A} (self : ref) (method : TrafficAdaptiveCA.t -> result A)
  : M A :=
  fun objects => (method (object objects self), objects).

(** A [for] loop whose body works on the objects. *)
Fixpoint for_ {A} (xs : list A) (body : A -> M unit) : M unit :=
  match xs with
  | [] => ret tt
  | x :: xs' => _ ← body x; for_ xs' body
  end.

(** Lines 273-298, on the store. *)
Definition traffic_adaptive_hash (input_data : string)
    (traffic_density : Float64.float) (signal_state : string) (urgency : Z)
  : M string :=
  let data := encode_utf8 input_data in
  ca ← new 256;
  _ ← assign ca (fun self => TrafficAdaptiveCA.init_state self data traffic_density);
  let rule := TrafficAdaptiveCA.select_traffic_rule traffic_density signal_state in
  let radius := TrafficAdaptiveCA.adapt_neighborhood signal_state in
  steps ← lift (TrafficAdaptiveCA.calculate_evolution_steps traffic_density urgency);
  _ ← for_ (Py.range 0 steps)
           (fun _ => assign ca (fun self => TrafficAdaptiveCA.evolve self rule radius));
  hash_bytes ← read ca (fun self => TrafficAdaptiveCA.get_hash self steps);
  ret (hex hash_bytes).

End Store.

(** ** Hash of an intersection state

    A [dict] is the list of its items in insertion order. The text of the
    f-string of line 353 (the [str] of two dictionaries, an integer and a
    float) is left to [format_input]. *)

Section IntersectionHash.

Variable format_input :
  string -> Z -> list (string * string) -> list (string * Z)
  -> Float64.float -> string.

(** [x in d.values()] *)
Definition in_values (x : string) (d : list (string * string)) : bool :=
  existsb (String.eqb x) d.*2.

(** Lines 338-342. *)
Definition adjusted_density (total_vehicles : Z) (weather_factor : Float64.float)
  : result Float64.float :=
  total ← Float64.of_int total_vehicles;
  let avg_density := Float64.min (Float64.div total Float64.f40_0) Float64.f1_0 in
  Ok (Float64.min (Float64.mul avg_density weather_factor) Float64.f1_0).

(** Lines 345-350. *)
Definition overall_state (signal_states : list (string * string)) : string :=
  if in_values "RED" signal_states then "RED"
  else if in_values "YELLOW" signal_states then "YELLOW"
  else "GREEN".

(** Line 356. *)
Definition intersection_urgency (total_vehicles : Z) : result Z :=
  q ← Float64.truediv total_vehicles 4;
  n ← Float64.to_int q;
  Ok (Py.min n 10).

Definition intersection_hash (intersection_id : string) (timestamp : Z)
    (signal_states : list (string * string))
    (vehicle_counts : list (string * Z))
    (weather_factor : Float64.float) : result string :=
  let total_vehicles := foldl Z.add 0 vehicle_counts.*2 in
  adjusted_density ← adjusted_density total_vehicles weather_factor;
  let overall_state := overall_state signal_states in
  let input_data :=
    format_input intersection_id timestamp signal_states vehicle_counts
                 weather_factor in
  urgency ← intersection_urgency total_vehicles;
  traffic_adaptive_hash input_data adjusted_density overall_state urgency.

End IntersectionHash.

(** ** Hash of a block

    [block_hash_with_traffic]; the type of the transactions is left
    open, with [str_tx] for the [str] of one of them. *)

(** [str(n)] of an integer: its decimal digits, after a minus sign when
    it is negative. *)
Definition str_of_int (n : Z) : string := NilZero.string_of_int (Z.to_int n).

(** The integer 10 as operand of a product with a float. *)
Definition f10 : Float64.float := Eval vm_compute in Float64.of_Z 10.

Section BlockHash.

Context {Tx : Type}.
Variable str_tx : Tx -> string.

(** Lines 393-394: the transactions joined by a bar, and the f-string. *)
Definition block_data (block_index : Z) (previous_hash : string)
    (timestamp : Z) (transactions : list Tx) (nonce : Z) : string :=
  let tx_data := String.concat "|" (str_tx <$> transactions) in
  (str_of_int block_index ++ "|" ++ previous_hash ++ "|"
     ++ str_of_int timestamp ++ "|" ++ tx_data ++ "|"
     ++ str_of_int nonce)%string.

(** Lines 397-402. *)
Definition congestion_state (network_congestion : Float64.float) : string :=
  if Float64.ltb network_congestion Float64.f0_3 then "GREEN"
  else if Float64.ltb network_congestion Float64.f0_7 then "YELLOW"
  else "RED".

Definition block_hash_with_traffic (block_index : Z) (previous_hash : string)
    (timestamp : Z) (transactions : list Tx) (nonce : Z)
    (network_congestion : Float64.float) : result string :=
  let block_data :=
    block_data block_index previous_hash timestamp transactions nonce in
  let state := congestion_state network_congestion in
  urgency ← Float64.to_int (Float64.mul network_congestion f10);
  traffic_adaptive_hash block_data network_congestion state urgency.

End BlockHash.

(** ** The mining simulation of [hash_analysis.py]

    [mining_simulation] returns a pair: the nonce found, or -1, and the
    time the search took. The model computes the first component; the
    second is read from the clock and is left out. *)

(** [s * n] on strings. *)
Definition str_mul (s : string) (n : Z) : string :=
  String.concat "" (replicate (Z.to_nat n) s).

(** [s.startswith(p)] *)
Definition startswith (s p : string) : bool := String.prefix p s.

(** The loop over the nonces, left by [return] at the first hash that
    starts with the target. *)
Fixpoint mining_loop (hash_func : string -> result string)
    (target_prefix block_data : string) (nonces : list Z) : result Z :=
  match nonces with
  | [] => Ok (-1)
  | nonce :: nonces' =>
      hash_result ← hash_func (block_data ++ str_of_int nonce)%string;
      if startswith hash_result target_prefix then Ok nonce
      else mining_loop hash_func target_prefix block_data nonces'
  end.

Definition mining_simulation (hash_func : string -> result string)
    (difficulty max_nonce : Z) : result Z :=
  let target_prefix := str_mul "0" difficulty in
  let block_data := "block_timestamp_1234567890_transactions_data"%string in
  mining_loop hash_func target_prefix block_data (Py.range 0 max_nonce).

(** ** The data model and the Evolver of the specification

    These definitions follow the words of the specification (sections 3
    and 4.5); the properties below compare them with the code. *)

Module Spec.

Definition is_bit (b : Z) : Prop := b = 0 \/ b = 1.

(** BitVector: exactly 256 binary values. *)
Definition BitVector (st : list Z) : Prop :=
  length st = 256%nat /\ Forall is_bit st.

(** The cell at an index taken modulo 256. *)
Definition cell (st : list Z) (k : Z) : Z := st !!! Z.to_nat (k `mod` 256).

(** The window value: the bits at offsets [-radius .. +radius] from [i]
    as an unsigned integer, the bit at offset [-radius] being the most
    significant, that is of weight [2 ^ (2 * radius)]. *)
Definition window_value (st : list Z) (i radius : Z) : Z :=
  foldr Z.add 0
        ((fun offset => cell st (i + offset) * 2 ^ (radius - offset))
           <$> Py.range (- radius) (radius + 1)).

(** Bit number [n] of [x]. *)
Definition bit_number (n x : Z) : Z := Z.b2z (Z.testbit x n).

Definition new_bit (rule radius : Z) (st : list Z) (i : Z) : Z :=
  let w := window_value st i radius in
  if radius =? 1 then bit_number w rule
  else bit_number (w `mod` 8) (Z.lxor rule (w `mod` 256)).

Definition generation (rule radius : Z) (st : list Z) : list Z :=
  new_bit rule radius st <$> Py.range 0 256.

End Spec.

(** ** Auxiliary notions of the proofs *)

(** The bits of a byte, most significant first. *)
Definition byte_bits (b : byte) : list Z :=
  (fun i => Z.land (Z.shiftr (int_of_byte b) (7 - i)) 1) <$> Py.range 0 8.

(** A shift record that has lost nothing: round and sticky bits clear. *)
Definition exact (mrs : shr_record) : Prop :=
  shr_r mrs = false /\ shr_s mrs = false.

(** The invariant of the automaton object during a hash computation. *)
Definition well_formed (ca : TrafficAdaptiveCA.t) : Prop :=
  TrafficAdaptiveCA.size ca = 256
  /\ Spec.BitVector (TrafficAdaptiveCA.state ca).

(** The signal states the code tells apart. *)
Definition recognized (signal_state : string) : Prop :=
  signal_state = "GREEN"%string \/ signal_state = "YELLOW"%string
  \/ signal_state = "RED"%string \/ signal_state = "EMERGENCY"%string.

(** The value that [get_hash] packs into byte [i]: the eight cells from
    [8 * i], the first one most significant; a cell beyond the end of the
    state counts for 0. *)
Definition cell_or_0 (st : list Z) (k : Z) : Z :=
  default 0 (st !! Z.to_nat k).

Definition packed (st : list Z) (i : Z) : Z :=
  cell_or_0 st (8 * i) * 128 + cell_or_0 st (8 * i + 1) * 64
  + cell_or_0 st (8 * i + 2) * 32 + cell_or_0 st (8 * i + 3) * 16
  + cell_or_0 st (8 * i + 4) * 8 + cell_or_0 st (8 * i + 5) * 4
  + cell_or_0 st (8 * i + 6) * 2 + cell_or_0 st (8 * i + 7).

(** Nonce [k] meets the target: its hash starts with [difficulty] zeros. *)
Definition meets_target (hash_func : string -> result string)
    (difficulty k : Z) : Prop :=
  exists h,
    hash_func ("block_timestamp_1234567890_transactions_data"
               ++ str_of_int k)%string = Ok h
    /\ startswith h (str_mul "0" difficulty) = true.

(** * Properties *)

(** ** Test vectors of SHA-256 *)

Example sha_constants :
  SHA256.K !! 0%nat = Some 0x428a2f98 /\ SHA256.K !! 63%nat = Some 0xc67178f2
  /\ length SHA256.K = 64%nat
  /\ SHA256.ra SHA256.H0 = 0x6a09e667 /\ SHA256.rh SHA256.H0 = 0x5be0cd19.
Proof. repeat split. Qed.

Example sha_abc :
  hex (SHA256.digest (encode_utf8 "abc"))
  = "ba7816bf8f01cfea414140de5dae2223b00361a396177a9cb410ff61f20015ad"%string.
Proof. vm_compute. reflexivity. Qed.

Example sha_empty :
  hex (SHA256.digest (encode_utf8 ""))
  = "e3b0c44298fc1c149afbf4c8996fb92427ae41e4649b934ca495991b7852b855"%string.
Proof. vm_compute. reflexivity. Qed.

Example sha_two_blocks :
  hex (SHA256.digest
         (encode_utf8 "abcdbcdecdefdefgefghfghighijhijkijkljklmklmnlmnomnopnopq"))
  = "248d6a61d20638b8e5c026930c3e6039a33ce45964ff2167f6ecedd419db06c1"%string.
Proof. vm_compute. reflexivity. Qed.

Import TrafficAdaptiveCA.

(** ** Loops *)

Lemma for_app {A S} (xs ys : list A) (body : S -> A -> result S) (s : S) :
  for_ (xs ++ ys) body s = for_ xs body s ≫= for_ ys body.
Proof.
  revert s; induction xs as [|x xs IH]; intros s; simpl; [done|].
  destruct (body s x) as [s'|e]; simpl; [apply IH | done].
Qed.

(** A loop that appends one computed element per iteration. *)
Lemma for_append {A B} (g : A -> result B) (h : A -> B) (xs : list A) (acc : list B) :
  (forall x, x ∈ xs -> g x = Ok (h x)) ->
  for_ xs (fun acc x => v ← g x; Ok (acc ++ [v])) acc = Ok (acc ++ (h <$> xs)).
Proof.
  revert acc; induction xs as [|x xs IH]; intros acc Hg; simpl.
  - by rewrite app_nil_r.
  - rewrite (Hg x) by left. simpl. rewrite IH.
    + by rewrite <- app_assoc.
    + intros y Hy. apply Hg. by right.
Qed.

(** A loop that maintains an invariant never raises. *)
Lemma for_invariant {A S} (I : S -> Prop) (xs : list A) (body : S -> A -> result S) (s : S) :
  I s ->
  (forall s x, x ∈ xs -> I s -> exists s', body s x = Ok s' /\ I s') ->
  exists s', for_ xs body s = Ok s' /\ I s'.
Proof.
  revert s; induction xs as [|x xs IH]; intros s Hs Hb; simpl.
  - eauto.
  - destruct (Hb s x) as (s' & -> & Hs'); [by left | done |]. simpl.
    apply IH; [done|]. intros s0 y Hy. apply Hb. by right.
Qed.

Lemma len_mul_singleton {A} (x : A) (n : Z) :
  0 <= n -> Py.len (Py.mul [x] n) = n.
Proof.
  intros Hn. unfold Py.len, Py.mul.
  assert (forall k, length (mjoin (replicate k [x])) = k) as ->.
  { induction k; simpl; congruence. }
  lia.
Qed.

Lemma range_snoc (a : Z) (k : nat) :
  Py.range a (a + Z.of_nat (S k)) = Py.range a (a + Z.of_nat k) ++ [a + Z.of_nat k].
Proof.
  unfold Py.range.
  replace (a + Z.of_nat (S k) - a) with (Z.of_nat (S k)) by lia.
  replace (a + Z.of_nat k - a) with (Z.of_nat k) by lia.
  apply seqZ_S.
Qed.

Lemma elem_of_range (a b k : Z) : k ∈ Py.range a b <-> a <= k < b.
Proof. unfold Py.range. rewrite elem_of_seqZ. lia. Qed.

Lemma length_range (a b : Z) : length (Py.range a b) = Z.to_nat (b - a).
Proof. apply length_seqZ. Qed.

(** A loop over [range(n)] that assigns cell [i] of a list of length [n]
    at iteration [i]: the result holds the computed values. *)
Lemma for_fill {B} (g : Z -> result B) (h : Z -> B) (n : Z) (l0 : list B) :
  Py.len l0 = n ->
  (forall i, 0 <= i < n -> g i = Ok (h i)) ->
  for_ (Py.range 0 n) (fun l i => v ← g i; Py.setitem l i v) l0
  = Ok (h <$> Py.range 0 n).
Proof.
  intros Hlen Hg.
  assert (forall k : nat, Z.of_nat k <= n ->
            for_ (Py.range 0 (Z.of_nat k)) (fun l i => v ← g i; Py.setitem l i v) l0
            = Ok ((h <$> Py.range 0 (Z.of_nat k)) ++ drop k l0)) as Hk.
  { induction k as [|k IH]; intros Hle.
    - done.
    - pose proof (range_snoc 0 k) as Hr. rewrite !Z.add_0_l in Hr. rewrite Hr.
      rewrite for_app, IH by lia. simpl.
      rewrite Hg by lia. simpl. unfold Py.setitem.
      assert ((Z.of_nat k <? 0) = false) as -> by lia.
      assert (length (h <$> Py.range 0 (Z.of_nat k)) = k) as Hl.
      { rewrite length_fmap, length_range. lia. }
      assert (Py.len ((h <$> Py.range 0 (Z.of_nat k)) ++ drop k l0) = n) as ->.
      { unfold Py.len in *. rewrite length_app, Hl, length_drop. lia. }
      assert ((0 <=? Z.of_nat k) && (Z.of_nat k <? n) = true) as ->.
      { apply andb_true_iff. split; lia. }
      f_equal. rewrite Nat2Z.id.
      rewrite insert_app_r_alt by lia. rewrite Hl, Nat.sub_diag.
      rewrite fmap_app, <- app_assoc. f_equal. simpl.
      destruct (drop k l0) as [|y l'] eqn:Hd.
      { apply (f_equal length) in Hd. rewrite length_drop in Hd.
        unfold Py.len in Hlen. simpl in Hd. lia. }
      simpl. f_equal.
      replace (S k) with (k + 1)%nat by lia.
      by rewrite <- drop_drop, Hd. }
  assert (0 <= n) as Hn by (unfold Py.len in Hlen; lia).
  specialize (Hk (Z.to_nat n)). rewrite Z2Nat.id in Hk by done.
  rewrite Hk by lia.
  rewrite drop_ge, app_nil_r; [done|]. unfold Py.len in Hlen. lia.
Qed.

(** ** Powers of two *)

(** [2 ^ e] is positive for every exponent that is not negative. *)
Ltac pow2_pos e :=
  assert (0 < 2 ^ e) by (apply Z.pow_pos_nonneg; lia).

(** ** Indexing *)

Lemma getitem_in_range {A} `{Inhabited A} (l : list A) (j : Z) :
  0 <= j < Py.len l -> Py.getitem l j = Ok (l !!! Z.to_nat j).
Proof.
  intros Hj. unfold Py.getitem.
  assert ((j <? 0) = false) as Hj0 by lia.
  rewrite Hj0. cbv zeta. rewrite Hj0.
  rewrite list_lookup_total_alt.
  destruct (l !! Z.to_nat j) as [x|] eqn:Hl; [reflexivity|].
  apply lookup_ge_None in Hl. unfold Py.len in Hj. lia.
Qed.

Lemma for_ext {A S} (xs : list A) (b1 b2 : S -> A -> result S) (s : S) :
  (forall s x, x ∈ xs -> b1 s x = b2 s x) ->
  for_ xs b1 s = for_ xs b2 s.
Proof.
  revert s; induction xs as [|x xs IH]; intros s Hb; simpl; [done|].
  rewrite Hb by left. destruct (b2 s x); simpl; [|done].
  apply IH. intros. apply Hb. by right.
Qed.

(** ** One generation *)

Lemma lor_shiftl_bit (a b : Z) :
  Spec.is_bit b -> Z.lor (Z.shiftl a 1) b = 2 * a + b.
Proof.
  intros [-> | ->]; rewrite Z.shiftl_mul_pow2 by lia; change (2 ^ 1) with 2.
  - rewrite Z.lor_0_r. lia.
  - assert (Z.land (a * 2) 1 = 0) as Hl.
    { change 1 with (Z.ones 1). rewrite Z.land_ones by lia.
      change (2 ^ 1) with 2. apply Z.mod_mul. lia. }
    rewrite <- Z.lxor_lor, <- Z.add_nocarry_lxor by done. lia.
Qed.

Lemma configuration_weights (f : Z -> Z) (n : nat) :
  forall (a acc t : Z),
    t = a + Z.of_nat n - 1 ->
    (forall x, a <= x <= t -> Spec.is_bit (f x)) ->
    foldl (fun nv bit => Z.lor (Z.shiftl nv 1) bit) acc (f <$> seqZ a (Z.of_nat n))
    = acc * 2 ^ Z.of_nat n
      + foldr Z.add 0 ((fun x => f x * 2 ^ (t - x)) <$> seqZ a (Z.of_nat n)).
Proof.
  induction n as [|n IH]; intros a acc t Ht Hf.
  - simpl. lia.
  - rewrite seqZ_cons by lia.
    replace (Z.pred (Z.of_nat (S n))) with (Z.of_nat n) by lia.
    cbn [fmap list_fmap foldl foldr].
    rewrite lor_shiftl_bit by (apply Hf; lia).
    rewrite (IH (Z.succ a) _ t) by (try (intros; apply Hf); lia).
    replace (t - a) with (Z.of_nat n) by lia.
    rewrite Nat2Z.inj_succ, Z.pow_succ_r by lia. lia.
Qed.

Lemma land_shiftr_1 (x n : Z) :
  0 <= n -> Z.land (Z.shiftr x n) 1 = Spec.bit_number n x.
Proof.
  intros Hn. unfold Spec.bit_number.
  change 1 with (Z.ones 1). rewrite Z.land_ones by lia.
  change (2 ^ 1) with 2. rewrite <- Z.bit0_mod, Z.shiftr_spec by lia.
  by rewrite Z.add_0_l.
Qed.

Lemma len_BitVector (st : list Z) : Spec.BitVector st -> Py.len st = 256.
Proof. intros [Hl _]. unfold Py.len. lia. Qed.

Lemma cell_is_bit (st : list Z) (k : Z) :
  Spec.BitVector st -> Spec.is_bit (Spec.cell st k).
Proof.
  intros [Hl Hb]. unfold Spec.cell.
  rewrite Forall_lookup in Hb.
  assert (Z.to_nat (k `mod` 256) < length st)%nat as Hk.
  { pose proof (Z.mod_pos_bound k 256). lia. }
  apply lookup_lt_is_Some in Hk. destruct Hk as [x Hx].
  rewrite list_lookup_total_alt, Hx. simpl. eauto.
Qed.

Lemma neighborhood_cells (self : t) (i radius : Z) :
  size self = 256 -> Py.len (state self) = 256 ->
  neighborhood self i radius
  = Ok ((fun offset => Spec.cell (state self) (i + offset))
          <$> Py.range (- radius) (radius + 1)).
Proof.
  intros Hsz Hst. unfold neighborhood.
  apply (for_append
           (fun offset => Py.getitem (state self) ((i + offset) `mod` size self))
           (fun offset => Spec.cell (state self) (i + offset))).
  intros offset _. rewrite Hsz. apply getitem_in_range.
  rewrite Hst. apply Z.mod_pos_bound. lia.
Qed.

Lemma configuration_window (st : list Z) (i radius : Z) :
  Spec.BitVector st ->
  configuration ((fun offset => Spec.cell st (i + offset))
                   <$> Py.range (- radius) (radius + 1))
  = Spec.window_value st i radius.
Proof.
  intros Hst. unfold configuration, Spec.window_value, Py.range.
  destruct (Z.le_gt_cases (radius + 1 - - radius) 0) as [Hle|Hgt].
  - by rewrite seqZ_nil.
  - rewrite <- (Z2Nat.id (radius + 1 - - radius)) by lia.
    rewrite (configuration_weights _ _ _ _ radius); [lia | lia |].
    intros. by apply cell_is_bit.
Qed.

Lemma weights_lt (f : Z -> Z) (n : nat) :
  forall (a t : Z),
    t = a + Z.of_nat n - 1 ->
    (forall x, Spec.is_bit (f x)) ->
    foldr Z.add 0 ((fun x => f x * 2 ^ (t - x)) <$> seqZ a (Z.of_nat n))
    < 2 ^ Z.of_nat n.
Proof.
  induction n as [|n IH]; intros a t Ht Hf.
  - simpl. lia.
  - rewrite seqZ_cons by lia.
    replace (Z.pred (Z.of_nat (S n))) with (Z.of_nat n) by lia.
    cbn [fmap list_fmap foldr].
    specialize (IH (Z.succ a) t ltac:(lia) Hf).
    replace (t - a) with (Z.of_nat n) by lia.
    rewrite Nat2Z.inj_succ, Z.pow_succ_r by lia.
    pow2_pos (Z.of_nat n).
    destruct (Hf a) as [-> | ->]; lia.
Qed.

Lemma window_value_lt (st : list Z) (i radius : Z) :
  Spec.BitVector st -> 0 <= radius ->
  Spec.window_value st i radius < 2 ^ (2 * radius + 1).
Proof.
  intros Hst Hr. unfold Spec.window_value, Py.range.
  replace (radius + 1 - - radius) with (Z.of_nat (Z.to_nat (2 * radius + 1))) by lia.
  replace (2 * radius + 1) with (Z.of_nat (Z.to_nat (2 * radius + 1))) at 2 by lia.
  apply (weights_lt (fun offset => Spec.cell st (i + offset))); [lia|].
  intros. by apply cell_is_bit.
Qed.

Lemma foldr_add_nonneg (l : list Z) :
  Forall (fun x => 0 <= x) l -> 0 <= foldr Z.add 0 l.
Proof. induction 1; simpl; lia. Qed.

Lemma window_value_nonneg (st : list Z) (i radius : Z) :
  Spec.BitVector st -> 0 <= Spec.window_value st i radius.
Proof.
  intros Hst. apply foldr_add_nonneg, Forall_fmap, Forall_forall.
  intros offset _. simpl.
  destruct (cell_is_bit st (i + offset) Hst) as [-> | ->]; [lia|].
  pose proof (Z.pow_nonneg 2 (radius - offset)). lia.
Qed.

Lemma apply_rule_bit (rule radius nv : Z) :
  0 <= nv ->
  apply_rule rule radius nv
  = Ok (if radius =? 1 then Spec.bit_number nv rule
        else Spec.bit_number (nv `mod` 8) (Z.lxor rule (nv `mod` 256))).
Proof.
  intros Hnv. unfold apply_rule, Py.rshift.
  destruct (radius =? 1).
  - assert ((nv <? 0) = false) as -> by lia. simpl.
    by rewrite land_shiftr_1.
  - pose proof (Z.mod_pos_bound nv 8).
    assert ((nv `mod` 8 <? 0) = false) as -> by lia. simpl.
    by rewrite land_shiftr_1 by lia.
Qed.

Lemma generation_BitVector (rule radius : Z) (st : list Z) :
  Spec.BitVector (Spec.generation rule radius st).
Proof.
  split.
  - unfold Spec.generation. by rewrite length_fmap, length_range.
  - apply Forall_fmap, Forall_forall. intros i _. simpl.
    unfold Spec.new_bit, Spec.bit_number, Spec.is_bit.
    destruct (radius =? 1); match goal with |- context [Z.testbit ?x ?n] =>
      destruct (Z.testbit x n) end; simpl; auto.
Qed.

(** One generation of the code is the generation of the specification. *)
Lemma evolve_generation (self : t) (rule radius : Z) :
  size self = 256 -> Spec.BitVector (state self) ->
  evolve self rule radius
  = Ok (set_state self (Spec.generation rule radius (state self))).
Proof.
  intros Hsz Hst. unfold evolve. rewrite Hsz.
  rewrite (for_ext _ _
             (fun l i => v ← Ok (Spec.new_bit rule radius (state self) i);
                         Py.setitem l i v)).
  - rewrite (for_fill _ (Spec.new_bit rule radius (state self))); [done| |done].
    by apply len_mul_singleton.
  - intros l i _. rewrite neighborhood_cells by (by try apply len_BitVector).
    simpl.
    rewrite configuration_window by done.
    rewrite apply_rule_bit by (by apply window_value_nonneg). done.
Qed.

(** ** Seeding *)

Lemma append_bits_flat (bits : list Z) (data : bytes) :
  append_bits bits data = bits ++ (data ≫= byte_bits).
Proof.
  unfold append_bits. revert bits.
  induction data as [|b data IH]; intros bits; simpl.
  - by rewrite app_nil_r.
  - rewrite IH. by rewrite <- !app_assoc.
Qed.

Lemma length_byte_bits (b : byte) : length (byte_bits b) = 8%nat.
Proof. reflexivity. Qed.

Lemma land_1_is_bit (x : Z) : Spec.is_bit (Z.land x 1).
Proof.
  change 1 with (Z.ones 1). rewrite Z.land_ones by lia.
  change (2 ^ 1) with 2. unfold Spec.is_bit.
  pose proof (Z.mod_pos_bound x 2). lia.
Qed.

Lemma length_append_bits (data : bytes) :
  length (append_bits [] data) = (8 * length data)%nat.
Proof.
  rewrite append_bits_flat, app_nil_l.
  induction data as [|b data IH]; [done|].
  rewrite bind_cons, length_app, IH, length_byte_bits.
  cbn [length]. lia.
Qed.

Lemma append_bits_are_bits (data : bytes) :
  Forall Spec.is_bit (append_bits [] data).
Proof.
  rewrite append_bits_flat, app_nil_l.
  induction data as [|b data IH]; [constructor|].
  rewrite bind_cons. apply Forall_app. split; [|done].
  apply Forall_fmap, Forall_forall. intros i _. apply land_1_is_bit.
Qed.

Lemma length_be_bytes (n : nat) (x : Z) : length (SHA256.be_bytes n x) = n.
Proof. induction n; simpl; congruence. Qed.

(** A SHA-256 digest has 32 bytes. *)
Lemma length_sha256 (data : bytes) : length (SHA256.digest data) = 32%nat.
Proof.
  unfold SHA256.digest, SHA256.digest_ints. rewrite length_fmap.
  destruct (foldl SHA256.compress SHA256.H0 _).
  rewrite !length_app, !length_be_bytes. done.
Qed.

Lemma upto_take {A} (l : list A) (n : Z) :
  0 <= n -> Py.upto l n = take (Z.to_nat n) l.
Proof. intros Hn. unfold Py.upto. by assert ((n <? 0) = false) as -> by lia. Qed.

Lemma length_mul {A} (l : list A) (n : Z) :
  length (Py.mul l n) = (Z.to_nat n * length l)%nat.
Proof.
  unfold Py.mul. induction (Z.to_nat n) as [|k IH]; simpl; [done|].
  rewrite length_app, IH. lia.
Qed.

Lemma Forall_mul {A} (P : A -> Prop) (l : list A) (n : Z) :
  Forall P l -> Forall P (Py.mul l n).
Proof.
  intros Hl. unfold Py.mul. induction (Z.to_nat n) as [|k IH]; simpl.
  - constructor.
  - by apply Forall_app.
Qed.

Lemma byte_of_int_ok (z : Z) :
  0 <= z < 256 -> exists b, byte_of_int z = Ok b /\ int_of_byte b = z.
Proof.
  intros Hz. unfold byte_of_int.
  assert ((0 <=? z) && (z <? 256) = true) as ->.
  { apply andb_true_iff. split; lia. }
  destruct (Byte.of_N (Z.to_N z)) as [b|] eqn:Hb.
  - exists b. split; [done|]. unfold int_of_byte.
    apply Byte.to_of_N in Hb. rewrite Hb. lia.
  - apply Byte.of_N_None_iff in Hb. lia.
Qed.

(** With at least [size] bits of input, the state is the first [size]
    of them, and the density is not looked at. *)
Lemma init_state_long (self : t) (data : bytes) (d : Float64.float) :
  0 <= size self <= 8 * Py.len data ->
  init_state self data d
  = Ok (set_state self (take (Z.to_nat (size self)) (append_bits [] data))).
Proof.
  intros Hsz. unfold init_state.
  assert (Py.len (append_bits [] data) = 8 * Py.len data) as Hl.
  { unfold Py.len. rewrite length_append_bits. lia. }
  rewrite Hl. assert ((8 * Py.len data <? size self) = false) as -> by lia.
  simpl. by rewrite upto_take by lia.
Qed.

(** With fewer bits, the state is completed from the digest of the
    input followed by the seed byte, provided the seed is a byte. *)
Lemma init_state_short (self : t) (data : bytes) (d : Float64.float) (seed : Z) :
  8 * Py.len data < size self ->
  Float64.to_int (Float64.mul d Float64.f255) = Ok seed ->
  0 <= seed < 256 ->
  exists st, init_state self data d = Ok (set_state self st)
             /\ Py.len st = size self /\ Forall Spec.is_bit st.
Proof.
  intros Hsz Hseed Hrange. unfold init_state.
  assert (Py.len (append_bits [] data) = 8 * Py.len data) as Hl.
  { unfold Py.len. rewrite length_append_bits. lia. }
  rewrite Hl. assert ((8 * Py.len data <? size self) = true) as -> by lia.
  rewrite Hseed. simpl.
  destruct (byte_of_int_ok seed Hrange) as (b & Hb & _).
  unfold bytes_of_ints. simpl. rewrite Hb. simpl.
  set (pad_bits := append_bits [] (SHA256.digest (data ++ [b]))).
  assert (Py.len pad_bits = 256) as Hp.
  { unfold Py.len, pad_bits. rewrite length_append_bits, length_sha256. done. }
  rewrite Hp. unfold Py.floordiv. simpl.
  set (needed := size self - 8 * Py.len data).
  eexists. split; [reflexivity|].
  assert (0 <= Py.len data) by (unfold Py.len; lia).
  rewrite !upto_take by lia.
  split.
  - unfold Py.len in *. rewrite length_take, length_app, length_take, length_mul.
    pose proof (Z.mod_pos_bound needed 256 ltac:(lia)).
    pose proof (Z.div_mod needed 256 ltac:(lia)).
    assert (0 <= needed `div` 256) by (apply Z.div_pos; lia).
    lia.
  - apply Forall_take, Forall_app. split; [apply append_bits_are_bits|].
    apply Forall_take, Forall_mul, append_bits_are_bits.
Qed.

(** With fewer bits and a seed that is not a byte, [bytes([density_seed])]
    raises. *)
Lemma init_state_bad_seed (self : t) (data : bytes) (d : Float64.float) (seed : Z) :
  8 * Py.len data < size self ->
  Float64.to_int (Float64.mul d Float64.f255) = Ok seed ->
  ~ 0 <= seed < 256 ->
  init_state self data d = Raise ValueError.
Proof.
  intros Hsz Hseed Hrange. unfold init_state.
  assert (Py.len (append_bits [] data) = 8 * Py.len data) as Hl.
  { unfold Py.len. rewrite length_append_bits. lia. }
  rewrite Hl. assert ((8 * Py.len data <? size self) = true) as -> by lia.
  rewrite Hseed. cbn [mbind result_bind].
  unfold bytes_of_ints, byte_of_int. cbn [for_].
  assert ((0 <=? seed) && (seed <? 256) = false) as ->.
  { apply andb_false_iff. lia. }
  reflexivity.
Qed.

(** ** Rounding of binary64 products *)

Lemma digits2_pos_size (p : positive) : digits2_pos p = Pos.size p.
Proof. induction p; simpl; congruence. Qed.

Lemma digits2_pos_lt (p : positive) : Z.pos p < 2 ^ Z.pos (digits2_pos p).
Proof.
  rewrite digits2_pos_size. pose proof (Pos.size_gt p) as H.
  apply Pos2Z.pos_lt_pos in H. by rewrite Pos2Z.inj_pow in H.
Qed.

(** A number below [2 ^ k] has at most [k] digits. *)
Lemma Zdigits2_le (m k : Z) : 0 <= m < 2 ^ k -> 0 <= k -> Zdigits2 m <= k.
Proof.
  intros [Hm Hk] Hk0. destruct m as [|p|p]; simpl; [done| |lia].
  rewrite digits2_pos_size. pose proof (Pos.size_le p) as H.
  apply Pos2Z.pos_le_pos in H. rewrite Pos2Z.inj_pow in H.
  change (Z.pos p~0) with (2 * Z.pos p) in H.
  destruct (Z.le_gt_cases (Z.pos (Pos.size p)) k) as [|Hgt]; [done|].
  assert (2 ^ (k + 1) <= 2 ^ Z.pos (Pos.size p)) by (apply Z.pow_le_mono_r; lia).
  rewrite Z.pow_add_r in * by lia. lia.
Qed.

Lemma iter_pos_nat {A} (f : A -> A) (p : positive) (x : A) :
  SpecFloat.iter_pos f p x = Nat.iter (Pos.to_nat p) f x.
Proof.
  revert x; induction p as [p IH|p IH|]; intros x; cbn [SpecFloat.iter_pos].
  - rewrite !IH, Pos2Nat.inj_xI, <- Nat.iter_add.
    replace (S (2 * Pos.to_nat p)) with (S (Pos.to_nat p + Pos.to_nat p)) by lia.
    by rewrite Nat.iter_succ_r.
  - rewrite !IH, Pos2Nat.inj_xO, <- Nat.iter_add. f_equal. lia.
  - done.
Qed.

Lemma shr_1_div (mrs : shr_record) :
  0 <= shr_m mrs ->
  shr_m (shr_1 mrs) = shr_m mrs / 2
  /\ (exact mrs -> shr_m mrs mod 2 = 0 -> exact (shr_1 mrs)).
Proof.
  destruct mrs as [m r s]. unfold exact. cbn [shr_m shr_r shr_s]. intros Hm.
  destruct m as [|[p|p|]|p]; cbn [shr_1 shr_m shr_r shr_s]; try lia.
  - split; [done|]. by intros [-> ->].
  - split; [apply Z.div_unique with 1; lia|]. intros _ H.
    assert (Z.pos p~1 mod 2 = 1) by (symmetry; apply Z.mod_unique with (Z.pos p); lia).
    lia.
  - split; [apply Z.div_unique with 0; lia|]. by intros [-> ->].
  - split; [done|]. intros _ H. done.
Qed.

Lemma iter_shr_1 (n : nat) (mrs : shr_record) :
  0 <= shr_m mrs ->
  shr_m (Nat.iter n shr_1 mrs) = shr_m mrs / 2 ^ Z.of_nat n
  /\ (exact mrs -> shr_m mrs mod 2 ^ Z.of_nat n = 0 ->
      exact (Nat.iter n shr_1 mrs)).
Proof.
  intros Hm. induction n as [|n [IHm IHe]].
  - simpl. rewrite Z.div_1_r. done.
  - change (Nat.iter (S n) shr_1 mrs) with (shr_1 (Nat.iter n shr_1 mrs)).
    assert (0 <= shr_m (Nat.iter n shr_1 mrs)) as Hn.
    { rewrite IHm. apply Z.div_pos; [done|]. apply Z.pow_pos_nonneg; lia. }
    destruct (shr_1_div _ Hn) as [Hd He].
    rewrite Nat2Z.inj_succ, Z.pow_succ_r by lia.
    pow2_pos (Z.of_nat n).
    split.
    + rewrite Hd, IHm, Z.div_div by lia. f_equal. lia.
    + intros Hex Hmod. apply Z.mod_divide in Hmod; [|lia].
      destruct Hmod as [k Hk]. apply He.
      * apply IHe; [done|]. rewrite Hk.
        replace (k * (2 * 2 ^ Z.of_nat n)) with (k * 2 * 2 ^ Z.of_nat n) by lia.
        apply Z.mod_mul. lia.
      * rewrite IHm, Hk.
        replace (k * (2 * 2 ^ Z.of_nat n)) with (k * 2 * 2 ^ Z.of_nat n) by lia.
        rewrite Z.div_mul by lia. apply Z.mod_mul. lia.
Qed.

(** A right shift by [n] digits of an exact record. *)
Lemma shr_exact (m e n : Z) :
  0 <= m ->
  exists mrs, shr (Build_shr_record m false false) e n = (mrs, e + Z.max 0 n)
    /\ shr_m mrs = m / 2 ^ Z.max 0 n
    /\ (m mod 2 ^ Z.max 0 n = 0 -> exact mrs).
Proof.
  intros Hm. destruct n as [|p|p]; simpl.
  - eexists. split; [by rewrite Z.add_0_r|]. rewrite Z.div_1_r. done.
  - eexists. split; [reflexivity|]. rewrite iter_pos_nat.
    pose proof (iter_shr_1 (Pos.to_nat p) (Build_shr_record m false false) Hm) as [H1 H2].
    rewrite positive_nat_Z in *. split; [done|]. intros. by apply H2.
  - eexists. split; [by rewrite Z.add_0_r|]. rewrite Z.div_1_r. done.
Qed.

(** What [round_nearest_even] adds to the truncated mantissa. *)
Lemma round_nearest_even_bounds (mrs : shr_record) :
  let q := round_nearest_even (shr_m mrs) (loc_of_shr_record mrs) in
  shr_m mrs <= q <= shr_m mrs + 1 /\ (exact mrs -> q = shr_m mrs).
Proof.
  destruct mrs as [m [|] [|]]; simpl; (split; [|by intros [? ?]]);
    try destruct (Z.even m); lia.
Qed.

Lemma pow2_split (x y c : Z) :
  x <= y <= c -> 2 ^ (c - x) = 2 ^ (c - y) * 2 ^ (y - x).
Proof. intros. rewrite <- Z.pow_add_r by lia. f_equal. lia. Qed.

(** The shift that brings an exact mantissa to the format: the exponent
    does not pass that of a float above the value. *)
Lemma shr_fexp_stage (m e b c : Z) :
  0 <= m -> e <= c -> -1074 <= c -> 0 <= b < 2 ^ 53 ->
  m <= b * 2 ^ (c - e) ->
  exists mrs e',
    shr_fexp 53 1024 m e loc_Exact = (mrs, e')
    /\ e <= e' <= c
    /\ shr_m mrs = m / 2 ^ (e' - e)
    /\ (m mod 2 ^ (e' - e) = 0 -> exact mrs).
Proof.
  intros Hm Hec Hc Hb Hle. unfold shr_fexp. simpl shr_record_of_loc.
  set (n := fexp 53 1024 (Zdigits2 m + e) - e).
  destruct (shr_exact m e n Hm) as (mrs & Hs & Hq & Hx).
  exists mrs, (e + Z.max 0 n). rewrite Hs.
  replace (e + Z.max 0 n - e) with (Z.max 0 n) by lia.
  split; [done|]. split; [|done].
  split; [lia|].
  assert (Zdigits2 m <= 53 + (c - e)) as Hd.
  { apply Zdigits2_le; [|lia]. split; [done|].
    rewrite Z.pow_add_r by lia.
    pow2_pos (c - e). nia. }
  subst n. unfold fexp, emin. lia.
Qed.

(** Rounding an exact positive mantissa: the result is not above a float
    [b * 2 ^ c] that is not below the value. *)
Lemma round_aux_le (m : positive) (e b c : Z) :
  e <= c -> -1074 <= c <= 971 -> 0 <= b < 2 ^ 53 ->
  Z.pos m <= b * 2 ^ (c - e) ->
  match binary_round_aux 53 1024 false (Z.pos m) e loc_Exact with
  | S754_zero false => True
  | S754_finite false m2 e2 => e2 <= c /\ Z.pos m2 <= b * 2 ^ (c - e2)
  | _ => False
  end.
Proof.
  intros Hec Hc Hb Hle. unfold binary_round_aux.
  destruct (shr_fexp_stage (Z.pos m) e b c) as (mrs1 & e1 & -> & He1 & Hm1 & Hx1);
    try lia.
  pose proof (round_nearest_even_bounds mrs1) as [Hq Hqx].
  set (q := round_nearest_even (shr_m mrs1) (loc_of_shr_record mrs1)) in *.
  pow2_pos (e1 - e).
  pow2_pos (c - e1).
  assert (0 <= shr_m mrs1) as Hm0 by (rewrite Hm1; apply Z.div_pos; lia).
  assert (q <= b * 2 ^ (c - e1)) as Hqb.
  { rewrite (pow2_split e e1 c) in Hle by lia.
    pose proof (Z.div_mod (Z.pos m) (2 ^ (e1 - e)) ltac:(lia)).
    pose proof (Z.mod_pos_bound (Z.pos m) (2 ^ (e1 - e)) ltac:(lia)).
    rewrite <- Hm1 in *.
    destruct (Z.eq_dec (Z.pos m mod 2 ^ (e1 - e)) 0) as [Hz|Hnz].
    - rewrite (Hqx (Hx1 Hz)). nia.
    - nia. }
  destruct (shr_fexp_stage q e1 b c) as (mrs2 & e2 & -> & He2 & Hm2 & _);
    try lia.
  pow2_pos (e2 - e1).
  assert (0 <= shr_m mrs2 <= b * 2 ^ (c - e2)) as Hfin.
  { rewrite Hm2. split; [apply Z.div_pos; lia|].
    apply Z.div_le_upper_bound; [lia|].
    rewrite (pow2_split e1 e2 c) in Hqb by lia. lia. }
  destruct (shr_m mrs2) as [|m2|m2]; [done| |lia].
  assert ((e2 <=? 1024 - 53) = true) as -> by lia.
  split; lia.
Qed.

(** Rounding a mantissa that stands for a float [b * 2 ^ c] gives that
    float. *)
Lemma round_aux_eq (m : positive) (e b c : Z) :
  e <= c -> -1074 <= c <= 971 -> 0 < b < 2 ^ 53 ->
  Z.pos m = b * 2 ^ (c - e) ->
  exists m2 e2,
    binary_round_aux 53 1024 false (Z.pos m) e loc_Exact
    = S754_finite false m2 e2
    /\ e2 <= c /\ Z.pos m2 = b * 2 ^ (c - e2).
Proof.
  intros Hec Hc Hb Heq. unfold binary_round_aux.
  destruct (shr_fexp_stage (Z.pos m) e b c) as (mrs1 & e1 & -> & He1 & Hm1 & Hx1);
    try lia.
  pose proof (round_nearest_even_bounds mrs1) as [_ Hqx].
  set (q := round_nearest_even (shr_m mrs1) (loc_of_shr_record mrs1)) in *.
  pow2_pos (e1 - e).
  pow2_pos (c - e1).
  assert (q = b * 2 ^ (c - e1)) as Hqb.
  { rewrite (pow2_split e e1 c) in Heq by lia.
    rewrite Hqx, Hm1, Heq.
    - rewrite Z.mul_assoc. apply Z.div_mul. lia.
    - apply Hx1. rewrite Heq, Z.mul_assoc. apply Z.mod_mul. lia. }
  destruct (shr_fexp_stage q e1 b c) as (mrs2 & e2 & -> & He2 & Hm2 & _);
    try lia.
  pow2_pos (e2 - e1).
  pow2_pos (c - e2).
  assert (shr_m mrs2 = b * 2 ^ (c - e2)) as Hfin.
  { rewrite Hm2, Hqb, (pow2_split e1 e2 c) by lia.
    rewrite Z.mul_assoc. apply Z.div_mul. lia. }
  destruct (shr_m mrs2) as [|m2|m2]; [nia| |nia].
  assert ((e2 <=? 1024 - 53) = true) as -> by lia.
  exists m2, e2. split; [done|]. split; lia.
Qed.

(** ** Densities between 0 and 1 *)

Lemma compare_cont_Eq_le (m p : positive) :
  match PosDef.Pos.compare_cont Eq m p with Gt => false | _ => true end = true ->
  (m <= p)%positive.
Proof.
  intros H. unfold Pos.le, Pos.compare.
  destruct (PosDef.Pos.compare_cont Eq m p); done.
Qed.

(** A float in [0, 1] is a zero or [m * 2 ^ e] with [m <= 2 ^ (- e)]. *)
Lemma in_unit_cases (d : Float64.float) :
  Float64.in_unit d = true ->
  (exists s, d = S754_zero s)
  \/ (exists m e, d = S754_finite false m e
        /\ -1074 <= e <= -52 /\ Z.pos m < 2 ^ 53 /\ Z.pos m <= 2 ^ (- e)).
Proof.
  unfold Float64.in_unit. intros H.
  apply andb_true_iff in H as [H H1]. apply andb_true_iff in H as [Hn H0].
  destruct d as [s|s| |s m e]; try discriminate; [left; eauto|right].
  destruct s; [discriminate|].
  exists m, e. split; [done|].
  unfold Float64.is_number, valid_binary, bounded, canonical_mantissa in Hn.
  apply andb_true_iff in Hn as [Hc He]. apply Z.eqb_eq in Hc.
  unfold fexp, emin, Float64.prec, Float64.emax in *.
  pose proof (digits2_pos_lt m) as Hd.
  assert (Z.pos (digits2_pos m) <= 53) as Hd53 by lia.
  assert (Z.pos m < 2 ^ 53) as Hm.
  { eapply Z.lt_le_trans; [exact Hd|]. apply Z.pow_le_mono_r; lia. }
  unfold Float64.leb, SFleb, SFcompare, Float64.f1_0 in H1.
  destruct (Z.compare_spec e (-52)) as [He52|He52|He52]; try discriminate.
  - subst e. apply compare_cont_Eq_le in H1.
    apply Pos2Z.pos_le_pos in H1.
    assert (2 ^ (- (-52)) = 4503599627370496) as -> by reflexivity.
    repeat split; lia.
  - repeat split; try lia.
    assert (2 ^ 53 <= 2 ^ (- e)) by (apply Z.pow_le_mono_r; lia). lia.
Qed.

(** The seed byte of a density in [0, 1]. *)
Lemma density_seed_byte (d : Float64.float) :
  Float64.in_unit d = true ->
  exists seed, Float64.to_int (Float64.mul d Float64.f255) = Ok seed
               /\ 0 <= seed <= 255.
Proof.
  intros Hd. destruct (in_unit_cases d Hd) as [[s ->]|(m & e & -> & He & Hm & Hle)].
  - exists 0. split; [done|lia].
  - unfold Float64.mul, Float64.f255, SFmul, Float64.prec, Float64.emax.
    cbn [xorb].
    assert (Z.pos (m * 8972014882652160) <= 255 * 2 ^ (0 - (e + -45))) as Hpre.
    { rewrite Pos2Z.inj_mul.
      replace (0 - (e + -45)) with (45 + - e) by lia.
      rewrite Z.pow_add_r by lia. change (2 ^ 45) with 35184372088832.
      pow2_pos (- e). nia. }
    pose proof (round_aux_le (m * 8972014882652160) (e + -45) 255 0
                  ltac:(lia) ltac:(lia) ltac:(lia) Hpre) as H.
    destruct (binary_round_aux 53 1024 false (Z.pos (m * 8972014882652160))
                (e + -45) loc_Exact) as [[|]|s| |[|] m2 e2]; try done.
    + exists 0. split; [done|lia].
    + destruct H as [He2 Hm2].
      eexists. split; [reflexivity|]. cbn [cond_Zopp].
      destruct (Z.leb_spec 0 e2).
      * assert (e2 = 0) as -> by lia.
        change (2 ^ (0 - 0)) with 1 in Hm2. change (2 ^ 0) with 1. lia.
      * pow2_pos (- e2).
        replace (0 - e2) with (- e2) in Hm2 by lia.
        split; [apply Z.div_pos; lia|].
        apply Z.div_le_upper_bound; lia.
Qed.

Lemma Qfloor_to_Q_64 (m : positive) (e : Z) :
  e <= -6 ->
  Qfloor (Float64.to_Q (S754_finite false m e) * 64) = Z.pos m / 2 ^ (- e - 6).
Proof.
  intros He. unfold Float64.to_Q. assert ((0 <=? e) = false) as -> by lia.
  cbn [cond_Zopp Qmult Qfloor Qnum Qden].
  rewrite Pos.mul_1_r, Pos2Z.inj_pow, Z2Pos.id by lia.
  replace (- e) with (- e - 6 + 6) at 1 by lia.
  rewrite Z.pow_add_r by lia. change (2 ^ 6) with 64.
  apply Z.div_mul_cancel_r; [|lia].
  apply Z.pow_nonzero; lia.
Qed.

(** The product of a density in [0, 1] with 64 is exact, and [int]
    takes its floor. *)
Lemma density_factor_floor (d : Float64.float) :
  Float64.in_unit d = true ->
  Float64.to_int (Float64.mul d Float64.f64)
  = Ok (Qfloor (Float64.to_Q d * 64))
  /\ 0 <= Qfloor (Float64.to_Q d * 64) <= 64.
Proof.
  intros Hd. destruct (in_unit_cases d Hd) as [[s ->]|(m & e & -> & He & Hm & Hle)].
  - change (Qfloor (Float64.to_Q (S754_zero s) * 64)) with 0.
    split; [reflexivity|lia].
  - rewrite Qfloor_to_Q_64 by lia.
    pow2_pos (- e - 6).
    split.
    + unfold Float64.mul, Float64.f64, SFmul, Float64.prec, Float64.emax.
      cbn [xorb].
      destruct (round_aux_eq (m * 4503599627370496) (e + -46) (Z.pos m) (e + 6))
        as (m2 & e2 & -> & He2 & Hm2); try lia.
      { rewrite Pos2Z.inj_mul. replace (e + 6 - (e + -46)) with 52 by lia. done. }
      cbn [Float64.to_int cond_Zopp].
      assert ((0 <=? e2) = false) as -> by lia.
      f_equal. rewrite Hm2.
      replace (- e2) with (- e - 6 + (e + 6 - e2)) by lia.
      rewrite Z.pow_add_r by lia.
      apply Z.div_mul_cancel_r; [lia|].
      apply Z.pow_nonzero; lia.
    + split; [apply Z.div_pos; lia|].
      apply Z.div_le_upper_bound; [lia|].
      replace (- e) with (- e - 6 + 6) in Hle by lia.
      rewrite Z.pow_add_r in Hle by lia. change (2 ^ 6) with 64 in Hle. lia.
Qed.

(** ** Comparison of floats *)

Lemma compare_cont_Eq_antisym (p q : positive) :
  PosDef.Pos.compare_cont Eq q p = CompOpp (PosDef.Pos.compare_cont Eq p q).
Proof. apply (Pos.compare_antisym p q). Qed.

Lemma SFcompare_antisym (x y : spec_float) :
  SFcompare y x = CompOpp <$> SFcompare x y.
Proof.
  destruct x as [sx|sx| |sx mx ex], y as [sy|sy| |sy my ey]; simpl;
    try destruct sx; try destruct sy; try reflexivity;
    rewrite (Z.compare_antisym ex ey);
    destruct (ex ?= ey); simpl; try reflexivity;
    rewrite (compare_cont_Eq_antisym mx my);
    try rewrite CompOpp_involutive; reflexivity.
Qed.

(** [c <= d] excludes [d < c]. *)
Lemma leb_not_ltb (c d : Float64.float) :
  Float64.leb c d = true -> Float64.ltb d c = false.
Proof.
  unfold Float64.leb, Float64.ltb, SFleb, SFltb.
  rewrite (SFcompare_antisym c d).
  by destruct (SFcompare c d) as [[ | | ]|].
Qed.

(** A number is either below a float or not below it. *)
Lemma ltb_or_leb (c d : Float64.float) :
  c <> S754_nan -> d <> S754_nan ->
  Float64.ltb d c = true \/ Float64.leb c d = true.
Proof.
  unfold Float64.leb, Float64.ltb, SFleb, SFltb. intros Hc Hd.
  rewrite (SFcompare_antisym c d).
  destruct (SFcompare c d) as [[ | | ]|] eqn:H; simpl; auto.
  exfalso. destruct c as [?|?| |[|] ? ?]; [| |by apply Hc|..];
    (destruct d as [?|?| |[|] ? ?]; [| |by apply Hd|..]);
    discriminate H.
Qed.

(** What is below 0.3 is below 0.7. *)
Lemma ltb_f0_3_f0_7 (d : Float64.float) :
  Float64.ltb d Float64.f0_3 = true -> Float64.ltb d Float64.f0_7 = true.
Proof.
  unfold Float64.ltb, SFltb, Float64.f0_3, Float64.f0_7.
  destruct d as [s|s| |s m e]; cbn [SFcompare].
  - intros _. reflexivity.
  - destruct s; intros H; [reflexivity | discriminate H].
  - intros H. discriminate H.
  - destruct s; [intros _; reflexivity|].
    destruct (Z.compare_spec e (-54)) as [He|He|He]; intros H;
      [| |discriminate H];
      (destruct (Z.compare_spec e (-53)); [lia|reflexivity|lia]).
Qed.

(** ** Digest extraction *)

Lemma lor_lt_pow2 (a b n : Z) :
  0 <= a < 2 ^ n -> 0 <= b < 2 ^ n -> 0 <= Z.lor a b < 2 ^ n.
Proof.
  intros Ha Hb. split; [apply Z.lor_nonneg; lia|].
  destruct (Z.eq_dec (Z.lor a b) 0) as [->|Hne]; [lia|].
  assert (0 <= Z.lor a b) by (apply Z.lor_nonneg; lia).
  destruct (Z.le_gt_cases n 0) as [Hn|Hn].
  { assert (2 ^ n <= 1).
    { destruct (Z.eq_dec n 0) as [->|]; [done|]. rewrite Z.pow_neg_r; lia. }
    assert (a = 0) as -> by lia. assert (b = 0) as -> by lia. done. }
  apply Z.log2_lt_pow2; [lia|]. rewrite Z.log2_lor by lia.
  apply Z.max_lub_lt.
  - destruct (Z.eq_dec a 0) as [->|]; [done|]. apply Z.log2_lt_pow2; lia.
  - destruct (Z.eq_dec b 0) as [->|]; [done|]. apply Z.log2_lt_pow2; lia.
Qed.

Lemma shiftl_bit_lt (bit k : Z) :
  Spec.is_bit bit -> 0 <= k <= 7 -> 0 <= Z.shiftl bit k < 2 ^ 8.
Proof.
  intros Hb Hk. rewrite Z.shiftl_mul_pow2 by lia.
  assert (0 < 2 ^ k <= 2 ^ 7) as Hp.
  { split; [apply Z.pow_pos_nonneg; lia|apply Z.pow_le_mono_r; lia]. }
  change (2 ^ 7) with 128 in Hp. change (2 ^ 8) with 256.
  destruct Hb as [-> | ->]; lia.
Qed.

Lemma getitem_BitVector (st : list Z) (j : Z) :
  Spec.BitVector st -> 0 <= j < 256 ->
  exists bit, Py.getitem st j = Ok bit /\ Spec.is_bit bit.
Proof.
  intros Hst Hj. rewrite getitem_in_range by (by rewrite len_BitVector).
  eexists. split; [done|].
  replace j with (j `mod` 256) by (apply Z.mod_small; lia).
  by apply cell_is_bit.
Qed.

Lemma pack_byte_ok (self : t) (i : Z) :
  Spec.BitVector (state self) -> 0 <= i < 32 ->
  exists v, pack_byte self i = Ok v /\ 0 <= v < 256.
Proof.
  intros Hst Hi. unfold pack_byte.
  apply (for_invariant (fun v => 0 <= v < 256)); [lia|].
  intros v j Hj%elem_of_range Hv.
  rewrite len_BitVector by done.
  assert ((i * 8 + j <? 256) = true) as -> by lia.
  destruct (getitem_BitVector (state self) (i * 8 + j) Hst) as (bit & -> & Hbit);
    [lia|].
  eexists. split; [reflexivity|].
  apply (lor_lt_pow2 _ _ 8); [done|]. apply shiftl_bit_lt; [done|lia].
Qed.

(** The digest of a BitVector: 32 bytes, and no exception. *)
Lemma get_hash_ok (self : t) (steps : Z) :
  Spec.BitVector (state self) ->
  exists bs, get_hash self steps = Ok bs /\ length bs = 32%nat.
Proof.
  intros Hst. unfold get_hash.
  apply (for_invariant (fun l : list byte => length l = 32%nat)); [done|].
  intros l i Hi%elem_of_range Hl.
  destruct (pack_byte_ok self i Hst) as (v & -> & Hv); [lia|].
  destruct (byte_of_int_ok v Hv) as (b & Hb & _).
  cbn [mbind result_bind]. rewrite Hb. cbn [mbind result_bind].
  unfold Py.setitem, Py.len. rewrite Hl. change (Z.of_nat 32) with 32.
  assert ((i <? 0) = false) as -> by lia.
  assert ((0 <=? i) && (i <? 32) = true) as ->.
  { apply andb_true_iff. split; lia. }
  eexists. split; [reflexivity|]. by rewrite length_insert.
Qed.

Lemma hex_digits_lower (b : byte) :
  is_lower_hex (hex_digit (int_of_byte b / 16)) = true
  /\ is_lower_hex (hex_digit (int_of_byte b mod 16)) = true.
Proof. destruct b; split; vm_compute; reflexivity. Qed.

Lemma length_hex (bs : bytes) :
  String.length (hex bs) = (2 * length bs)%nat.
Proof. induction bs as [|b bs IH]; simpl; [done|]. rewrite IH. lia. Qed.

Lemma hex_is_hex_string (bs : bytes) : hex_string (hex bs).
Proof.
  unfold hex_string. induction bs as [|b bs IH]; [constructor|].
  destruct (hex_digits_lower b) as [H1 H2].
  cbn [hex list_ascii_of_string]. by repeat constructor.
Qed.

(** ** The whole computation *)

Lemma init_state_well_formed (self : t) (data : bytes) (d : Float64.float) :
  size self = 256 ->
  Float64.in_unit d = true \/ 32 <= Py.len data ->
  exists ca, init_state self data d = Ok ca /\ well_formed ca.
Proof.
  intros Hsz Hd.
  destruct (Z.le_gt_cases 32 (Py.len data)) as [Hlong|Hshort].
  - rewrite init_state_long by lia. eexists. split; [reflexivity|].
    split; [done|]. rewrite Hsz. split.
    + cbn [state set_state]. rewrite length_take, length_append_bits.
      unfold Py.len in Hlong. lia.
    + apply Forall_take, append_bits_are_bits.
  - destruct Hd as [Hd|Hd]; [|lia].
    destruct (density_seed_byte d Hd) as (seed & Hseed & Hrange).
    destruct (init_state_short self data d seed) as (st & -> & Hlen & Hbits);
      [lia|done|lia|].
    eexists. split; [reflexivity|]. split; [done|].
    split; [|done]. cbn [state set_state]. unfold Py.len in Hlen. lia.
Qed.

(** Seeding overwrites the state: what the object held before does not
    matter. *)
Lemma init_state_fresh (self : t) (data : bytes) (d : Float64.float) :
  size self = 256 ->
  init_state self data d
  = (ca ← init_state (init 256) data d; Ok (set_state self (state ca))).
Proof.
  intros Hsz. unfold init_state. rewrite Hsz. cbn [size init].
  destruct (Py.len (append_bits [] data) <? 256); [|done].
  destruct (Float64.to_int _) as [seed|]; [|done]. cbn [mbind result_bind].
  destruct (bytes_of_ints [seed]) as [bs|]; [|done]. cbn [mbind result_bind].
  destruct (Py.floordiv _ _); done.
Qed.

Lemma evolve_well_formed (ca : t) (rule radius : Z) :
  well_formed ca ->
  exists ca', evolve ca rule radius = Ok ca' /\ well_formed ca'.
Proof.
  intros [Hsz Hst]. rewrite evolve_generation by done.
  eexists. split; [reflexivity|]. split; [done|].
  apply generation_BitVector.
Qed.

Lemma evolve_loop_well_formed (ca : t) (rule radius steps : Z) :
  well_formed ca ->
  exists ca', for_ (Py.range 0 steps) (fun ca _ => evolve ca rule radius) ca
              = Ok ca'
              /\ well_formed ca'.
Proof.
  intros Hca. apply (for_invariant well_formed); [done|].
  intros ca0 _ _ Hca0. by apply evolve_well_formed.
Qed.

(** Once the state is seeded and the step count known, the rest of
    [traffic_adaptive_hash] returns 64 hexadecimal digits. *)
Lemma hash_of_seeded (ca : t) (rule radius steps : Z) :
  well_formed ca ->
  exists bs,
    (ca' ← for_ (Py.range 0 steps) (fun ca _ => evolve ca rule radius) ca;
     hash_bytes ← get_hash ca' steps; Ok (hex hash_bytes))
    = Ok (hex bs) /\ length bs = 32%nat.
Proof.
  intros Hca.
  destruct (evolve_loop_well_formed ca rule radius steps Hca) as (ca' & -> & [_ Hst]).
  destruct (get_hash_ok ca' steps Hst) as (bs & Hbs & Hlen).
  exists bs. cbn [mbind result_bind]. rewrite Hbs. done.
Qed.

Lemma hash_ok (input_data : string) (d : Float64.float) (signal_state : string)
    (urgency : Z) :
  Float64.in_unit d = true ->
  exists bs, traffic_adaptive_hash input_data d signal_state urgency = Ok (hex bs)
             /\ length bs = 32%nat.
Proof.
  intros Hd. unfold traffic_adaptive_hash.
  destruct (init_state_well_formed (init 256) (encode_utf8 input_data) d)
    as (ca & -> & Hca); [done|by left|].
  cbn [mbind result_bind]. unfold calculate_evolution_steps.
  destruct (density_factor_floor d Hd) as [-> _]. cbn [mbind result_bind].
  by apply hash_of_seeded.
Qed.

(** ** The Evolver *)

Lemma lookup_generation (rule radius : Z) (st : list Z) (i : Z) :
  0 <= i < 256 ->
  Spec.generation rule radius st !! Z.to_nat i
  = Some (Spec.new_bit rule radius st i).
Proof.
  intros Hi. unfold Spec.generation, Py.range.
  rewrite list_lookup_fmap, lookup_seqZ_lt by lia.
  simpl. f_equal. f_equal. lia.
Qed.

Lemma init_well_formed : well_formed (init 256).
Proof.
  split; [reflexivity|]. split; [reflexivity|].
  apply Forall_mul. repeat constructor.
Qed.

(** C1: for every 256-bit state, rule in [0,255] and radius >= 1, one
    generation of [evolve] returns a state of 256 cells whose cell [i] is
    computed from the window value [w] of the [2 * radius + 1] bits at
    offsets [-radius .. +radius] around [i] (indices modulo 256, the bit at
    offset [-radius] most significant, so [0 <= w < 2 ^ (2 * radius + 1)]):
    bit number [w] of [rule] if [radius] is 1, and bit number [w mod 8] of
    [rule XOR (w mod 256)] otherwise. *)
Theorem evolve_window_rule (self : t) (rule radius : Z) :
  size self = 256 -> Spec.BitVector (state self) ->
  0 <= rule <= 255 -> 1 <= radius ->
  exists self',
    evolve self rule radius = Ok self'
    /\ length (state self') = 256%nat
    /\ forall i, 0 <= i < 256 ->
         let w := Spec.window_value (state self) i radius in
         0 <= w < 2 ^ (2 * radius + 1)
         /\ state self' !! Z.to_nat i
            = Some (if radius =? 1 then Spec.bit_number w rule
                    else Spec.bit_number (w `mod` 8)
                                         (Z.lxor rule (w `mod` 256))).
Proof.
  intros Hsz Hst _ Hr. rewrite evolve_generation by done.
  eexists. split; [reflexivity|]. cbn [state set_state].
  split; [apply generation_BitVector|].
  intros i Hi. split.
  - split; [by apply window_value_nonneg|apply window_value_lt; [done|lia]].
  - by rewrite lookup_generation.
Qed.

Lemma evolve_window_rule_witness :
  exists self',
    evolve (init 256) 30 1 = Ok self'
    /\ length (state self') = 256%nat
    /\ forall i, 0 <= i < 256 ->
         let w := Spec.window_value (state (init 256)) i 1 in
         0 <= w < 2 ^ (2 * 1 + 1)
         /\ state self' !! Z.to_nat i
            = Some (if 1 =? 1 then Spec.bit_number w 30
                    else Spec.bit_number (w `mod` 8)
                                         (Z.lxor 30 (w `mod` 256))).
Proof.
  apply (evolve_window_rule (init 256) 30 1);
    [reflexivity | apply init_well_formed | lia | lia].
Defined.

(** C6: in a state of 256 cells, for every cell index [i], radius in
    {1, 2, 3, 5} and offset in [-radius .. +radius], the index
    [(i + offset) % size] that [evolve] reads lies in [0, 256): it is
    [i + offset] brought back into range by adding or subtracting 256 once,
    so that at index 0 the negative offsets reach the end of the ring and
    at index 255 the positive offsets reach its beginning; the read raises
    no [IndexError], and the neighbourhood collected is the one of the
    reference lookup modulo 256. *)
Theorem neighborhood_ring (self : t) (i radius : Z) :
  size self = 256 -> length (state self) = 256%nat ->
  0 <= i < 256 ->
  radius = 1 \/ radius = 2 \/ radius = 3 \/ radius = 5 ->
  (forall offset, - radius <= offset <= radius ->
     let idx := (i + offset) `mod` size self in
     0 <= idx < Py.len (state self)
     /\ idx = (if i + offset <? 0 then i + offset + 256
               else if 256 <=? i + offset then i + offset - 256
               else i + offset)
     /\ (i = 0 -> offset < 0 -> idx = 256 + offset)
     /\ (i = 255 -> 0 < offset -> idx = offset - 1)
     /\ Py.getitem (state self) idx = Ok (Spec.cell (state self) (i + offset)))
  /\ neighborhood self i radius
     = Ok ((fun offset => Spec.cell (state self) (i + offset))
             <$> Py.range (- radius) (radius + 1)).
Proof.
  intros Hsz Hlen Hi Hr.
  assert (Py.len (state self) = 256) as Hl by (unfold Py.len; lia).
  split; [|by apply neighborhood_cells].
  intros offset Ho idx. subst idx. rewrite Hsz, Hl.
  assert ((i + offset) `mod` 256
          = if i + offset <? 0 then i + offset + 256
            else if 256 <=? i + offset then i + offset - 256
            else i + offset) as Hwrap.
  { destruct (Z.ltb_spec (i + offset) 0); [|destruct (Z.leb_spec 256 (i + offset))].
    - symmetry. apply Z.mod_unique with (-1); lia.
    - symmetry. apply Z.mod_unique with 1; lia.
    - apply Z.mod_small. lia. }
  pose proof (Z.mod_pos_bound (i + offset) 256 ltac:(lia)) as Hb.
  split; [done|]. split; [done|].
  split; [|split].
  - intros -> Hneg. rewrite Hwrap.
    assert ((0 + offset <? 0) = true) as -> by lia. lia.
  - intros -> Hpos. rewrite Hwrap.
    assert ((255 + offset <? 0) = false) as -> by lia.
    assert ((256 <=? 255 + offset) = true) as -> by lia. lia.
  - rewrite getitem_in_range by lia. done.
Qed.

Lemma neighborhood_ring_witness :
  (forall offset, - 5 <= offset <= 5 ->
     let idx := (0 + offset) `mod` size (init 256) in
     0 <= idx < Py.len (state (init 256))
     /\ idx = (if 0 + offset <? 0 then 0 + offset + 256
               else if 256 <=? 0 + offset then 0 + offset - 256
               else 0 + offset)
     /\ (0 = 0 -> offset < 0 -> idx = 256 + offset)
     /\ (0 = 255 -> 0 < offset -> idx = offset - 1)
     /\ Py.getitem (state (init 256)) idx
        = Ok (Spec.cell (state (init 256)) (0 + offset)))
  /\ neighborhood (init 256) 0 5
     = Ok ((fun offset => Spec.cell (state (init 256)) (0 + offset))
             <$> Py.range (- 5) (5 + 1)).
Proof.
  apply (neighborhood_ring (init 256) 0 5);
    [reflexivity | reflexivity | lia | right; right; right; reflexivity].
Defined.

(** C7: throughout a hash computation the state is a BitVector of exactly
    256 cells: after seeding (here for a density in [0, 1]), and after any
    number of generations; and one generation on such a state returns the
    state whose every cell is the new bit computed from the state before
    the generation, which is assigned as a whole. *)
Theorem state_invariant (data : bytes) (d : Float64.float) (rule radius : Z) :
  Float64.in_unit d = true ->
  exists ca0,
    init_state (init 256) data d = Ok ca0
    /\ size ca0 = 256 /\ Spec.BitVector (state ca0)
    /\ (forall steps, exists ca,
          for_ (Py.range 0 steps) (fun ca _ => evolve ca rule radius) ca0 = Ok ca
          /\ size ca = 256 /\ Spec.BitVector (state ca))
    /\ (forall ca, size ca = 256 -> Spec.BitVector (state ca) ->
          exists ca',
            evolve ca rule radius = Ok ca'
            /\ size ca' = 256 /\ Spec.BitVector (state ca')
            /\ forall i, 0 <= i < 256 ->
                 state ca' !! Z.to_nat i
                 = Some (Spec.new_bit rule radius (state ca) i)).
Proof.
  intros Hd.
  destruct (init_state_well_formed (init 256) data d) as (ca0 & H0 & Hsz & Hst);
    [reflexivity | by left |].
  exists ca0. split; [done|]. split; [done|]. split; [done|]. split.
  - intros steps.
    destruct (evolve_loop_well_formed ca0 rule radius steps) as (ca & Hca & Hwf);
      [by split|].
    exists ca. by destruct Hwf.
  - intros ca Hsz' Hst'. rewrite evolve_generation by done.
    eexists. split; [reflexivity|]. cbn [state set_state size].
    split; [done|]. split; [apply generation_BitVector|].
    intros i Hi. by apply lookup_generation.
Qed.

Lemma state_invariant_witness :
  exists ca0,
    init_state (init 256) [] Float64.f0_0 = Ok ca0
    /\ size ca0 = 256 /\ Spec.BitVector (state ca0)
    /\ (forall steps, exists ca,
          for_ (Py.range 0 steps) (fun ca _ => evolve ca 30 1) ca0 = Ok ca
          /\ size ca = 256 /\ Spec.BitVector (state ca))
    /\ (forall ca, size ca = 256 -> Spec.BitVector (state ca) ->
          exists ca',
            evolve ca 30 1 = Ok ca'
            /\ size ca' = 256 /\ Spec.BitVector (state ca')
            /\ forall i, 0 <= i < 256 ->
                 state ca' !! Z.to_nat i
                 = Some (Spec.new_bit 30 1 (state ca) i)).
Proof.
  apply (state_invariant [] Float64.f0_0 30 1). reflexivity.
Defined.

(** ** Rule, radius and step selection *)

Lemma eqb_neq_false (s t : string) : s <> t -> String.eqb s t = false.
Proof. intros H. by apply String.eqb_neq. Qed.

(** C2: for every density and signal state, [select_traffic_rule] returns
    one of 30, 90, 110, 184, by the decision table of section 4.2:
    EMERGENCY gives 184; otherwise a density below 0.3 gives 30 for GREEN
    and 90 for the other states; a density from 0.3 and below 0.7 gives
    110 for YELLOW and 90 for the other states; a density from 0.7 gives
    110 for RED and 184 for the other states. The densities 0.3 and 0.7
    themselves belong to the second and the third range. *)
Theorem rule_selector_table (density : Float64.float) (signal_state : string) :
  let rule := select_traffic_rule density signal_state in
  let lt x y := Float64.ltb x y = true in
  let le x y := Float64.leb x y = true in
  (rule = 30 \/ rule = 90 \/ rule = 110 \/ rule = 184)
  /\ (signal_state = "EMERGENCY"%string -> rule = 184)
  /\ (signal_state <> "EMERGENCY"%string ->
      (lt density Float64.f0_3 ->
         (signal_state = "GREEN"%string -> rule = 30)
         /\ (signal_state <> "GREEN"%string -> rule = 90))
      /\ (le Float64.f0_3 density -> lt density Float64.f0_7 ->
            (signal_state = "YELLOW"%string -> rule = 110)
            /\ (signal_state <> "YELLOW"%string -> rule = 90))
      /\ (le Float64.f0_7 density ->
            (signal_state = "RED"%string -> rule = 110)
            /\ (signal_state <> "RED"%string -> rule = 184)))
  /\ le Float64.f0_3 Float64.f0_3 /\ lt Float64.f0_3 Float64.f0_7
  /\ le Float64.f0_7 Float64.f0_7.
Proof.
  intros rule lt le. subst rule lt le. unfold select_traffic_rule.
  split; [|split; [|split]].
  - destruct (String.eqb signal_state "EMERGENCY"); [tauto|].
    destruct (Float64.ltb density Float64.f0_3);
      [destruct (String.eqb signal_state "GREEN"); tauto|].
    destruct (Float64.ltb density Float64.f0_7);
      [destruct (String.eqb signal_state "YELLOW"); tauto|].
    destruct (String.eqb signal_state "RED"); tauto.
  - intros ->. reflexivity.
  - intros Hne. rewrite (eqb_neq_false _ _ Hne).
    split; [|split].
    + intros ->. split; [intros ->; reflexivity|].
      intros Hg. by rewrite (eqb_neq_false _ _ Hg).
    + intros H3%leb_not_ltb ->. rewrite H3.
      split; [intros ->; reflexivity|].
      intros Hy. by rewrite (eqb_neq_false _ _ Hy).
    + intros H7%leb_not_ltb.
      destruct (Float64.ltb density Float64.f0_3) eqn:H3.
      { apply ltb_f0_3_f0_7 in H3. congruence. }
      rewrite H7.
      split; [intros ->; reflexivity|].
      intros Hr. by rewrite (eqb_neq_false _ _ Hr).
  - repeat split.
Qed.

Lemma rule_selector_table_witness :
  let density := Float64.f0_3 in
  let signal_state := "YELLOW"%string in
  let rule := select_traffic_rule density signal_state in
  let lt x y := Float64.ltb x y = true in
  let le x y := Float64.leb x y = true in
  (rule = 30 \/ rule = 90 \/ rule = 110 \/ rule = 184)
  /\ (signal_state = "EMERGENCY"%string -> rule = 184)
  /\ (signal_state <> "EMERGENCY"%string ->
      (lt density Float64.f0_3 ->
         (signal_state = "GREEN"%string -> rule = 30)
         /\ (signal_state <> "GREEN"%string -> rule = 90))
      /\ (le Float64.f0_3 density -> lt density Float64.f0_7 ->
            (signal_state = "YELLOW"%string -> rule = 110)
            /\ (signal_state <> "YELLOW"%string -> rule = 90))
      /\ (le Float64.f0_7 density ->
            (signal_state = "RED"%string -> rule = 110)
            /\ (signal_state <> "RED"%string -> rule = 184)))
  /\ le Float64.f0_3 Float64.f0_3 /\ lt Float64.f0_3 Float64.f0_7
  /\ le Float64.f0_7 Float64.f0_7.
Proof. apply (rule_selector_table Float64.f0_3 "YELLOW"). Defined.

(** The table leaves no number out. *)
Lemma rule_table_exhaustive (density : Float64.float) :
  density <> S754_nan ->
  Float64.ltb density Float64.f0_3 = true
  \/ (Float64.leb Float64.f0_3 density = true
      /\ Float64.ltb density Float64.f0_7 = true)
  \/ Float64.leb Float64.f0_7 density = true.
Proof.
  intros Hn.
  destruct (ltb_or_leb Float64.f0_3 density) as [H|H]; [done|done|by left|].
  destruct (ltb_or_leb Float64.f0_7 density) as [H'|H']; [done|done| |];
    auto.
Qed.

Example rule_at_boundaries :
  select_traffic_rule Float64.f0_3 "GREEN" = 90
  /\ select_traffic_rule Float64.f0_3 "YELLOW" = 110
  /\ select_traffic_rule Float64.f0_7 "YELLOW" = 184
  /\ select_traffic_rule Float64.f0_7 "RED" = 110
  /\ select_traffic_rule Float64.f0_0 "GREEN" = 30
  /\ select_traffic_rule Float64.f1_0 "GREEN" = 184.
Proof. repeat split. Qed.

Lemma py_min_256 (total : Z) : Py.min total 256 = Z.min 256 total.
Proof. unfold Py.min. destruct (Z.ltb_spec 256 total); lia. Qed.

(** The step count for a density in [0, 1] and any urgency. *)
Lemma steps_formula (density : Float64.float) (urgency : Z) :
  Float64.in_unit density = true ->
  calculate_evolution_steps density urgency
  = Ok (Z.min 256 (64 + Qfloor (Float64.to_Q density * 64) + urgency * 10)).
Proof.
  intros Hd. unfold calculate_evolution_steps.
  destruct (density_factor_floor density Hd) as [-> _].
  cbn [mbind result_bind]. by rewrite py_min_256.
Qed.

(** C3: for every density in [0, 1] and integer urgency in [0, 10],
    [calculate_evolution_steps] returns
    [min(256, 64 + floor(density * 64) + urgency * 10)], the cap being
    applied to the sum, and the result lies in [64, 256]. *)
Theorem step_scheduler_formula (density : Float64.float) (urgency : Z) :
  Float64.in_unit density = true -> 0 <= urgency <= 10 ->
  let steps :=
    Z.min 256 (64 + Qfloor (Float64.to_Q density * 64) + urgency * 10) in
  calculate_evolution_steps density urgency = Ok steps
  /\ 64 <= steps <= 256.
Proof.
  intros Hd Hu steps. subst steps. split; [by apply steps_formula|].
  destruct (density_factor_floor density Hd) as [_ Hf]. lia.
Qed.

Lemma step_scheduler_formula_witness :
  let steps :=
    Z.min 256 (64 + Qfloor (Float64.to_Q Float64.f0_7 * 64) + 10 * 10) in
  calculate_evolution_steps Float64.f0_7 10 = Ok steps
  /\ 64 <= steps <= 256.
Proof.
  apply (step_scheduler_formula Float64.f0_7 10); [reflexivity | lia].
Defined.

(** ** The hash function *)

(** C5: for every text (the empty one included), density in [0, 1],
    signal state and urgency in [0, 10], [traffic_adaptive_hash] returns
    the hexadecimal form of 32 bytes: a string of exactly 64 characters,
    each a lowercase hexadecimal digit. In particular the empty text with
    density 0.0 is seeded to a full BitVector of 256 cells and hashed to
    such a string. *)
Theorem hash_format (input_data : string) (density : Float64.float)
    (signal_state : string) (urgency : Z) :
  Float64.in_unit density = true -> 0 <= urgency <= 10 ->
  (exists bs,
     traffic_adaptive_hash input_data density signal_state urgency
     = Ok (hex bs)
     /\ length bs = 32%nat
     /\ String.length (hex bs) = 64%nat
     /\ hex_string (hex bs))
  /\ (exists ca,
        init_state (init 256) (encode_utf8 "") Float64.f0_0 = Ok ca
        /\ Spec.BitVector (state ca))
  /\ (exists h,
        traffic_adaptive_hash "" Float64.f0_0 signal_state urgency = Ok h
        /\ String.length h = 64%nat /\ hex_string h).
Proof.
  intros Hd _. split; [|split].
  - destruct (hash_ok input_data density signal_state urgency Hd)
      as (bs & Hbs & Hlen).
    exists bs. split; [done|]. split; [done|].
    split; [|apply hex_is_hex_string]. rewrite length_hex, Hlen. done.
  - destruct (init_state_well_formed (init 256) (encode_utf8 "") Float64.f0_0)
      as (ca & Hca & _ & Hst); [reflexivity | by left |].
    by exists ca.
  - destruct (hash_ok "" Float64.f0_0 signal_state urgency) as (bs & Hbs & Hlen);
      [reflexivity|].
    exists (hex bs). split; [done|].
    split; [|apply hex_is_hex_string]. rewrite length_hex, Hlen. done.
Qed.

Lemma hash_format_witness :
  (exists bs,
     traffic_adaptive_hash "" Float64.f0_0 "GREEN" 0 = Ok (hex bs)
     /\ length bs = 32%nat
     /\ String.length (hex bs) = 64%nat
     /\ hex_string (hex bs))
  /\ (exists ca,
        init_state (init 256) (encode_utf8 "") Float64.f0_0 = Ok ca
        /\ Spec.BitVector (state ca))
  /\ (exists h,
        traffic_adaptive_hash "" Float64.f0_0 "GREEN" 0 = Ok h
        /\ String.length h = 64%nat /\ hex_string h).
Proof.
  apply (hash_format "" Float64.f0_0 "GREEN" 0); [reflexivity | lia].
Defined.

(** The object that [new] has created is read at its address. *)
Lemma object_new (objects : Store.store) (self : t) :
  Store.object (objects ++ [self]) (length objects) = self.
Proof.
  unfold Store.object, Store.store, Store.ref in *.
  by rewrite list_lookup_middle.
Qed.

Lemma object_assigned (objects : Store.store) (ca : Store.ref) (self : t) :
  (ca < length objects)%nat ->
  Store.object (<[ca := self]> objects) ca = self.
Proof.
  intros Hca. unfold Store.object, Store.store, Store.ref in *.
  by rewrite list_lookup_insert_eq.
Qed.

(** The equations of the computations on the store. *)
Lemma store_bind_eq {A B} (m : Store.M A) (k : A -> Store.M B)
    (objects : Store.store) :
  (m ≫= k) objects
  = match m objects with
    | (Ok a, objects') => k a objects'
    | (Raise e, objects') => (Raise e, objects')
    end.
Proof. reflexivity. Qed.

Lemma assign_eq (ca : Store.ref) (method : t -> result t)
    (objects : Store.store) :
  Store.assign ca method objects
  = match method (Store.object objects ca) with
    | Ok self => (Ok tt, <[ca := self]> objects)
    | Raise e => (Raise e, objects)
    end.
Proof. reflexivity. Qed.

(** A loop of method calls on one object leaves in the store what the
    loop leaves of the object; when a call raises, so does the loop. *)
Lemma for_assign {A} (ca : Store.ref) (method : t -> A -> result t)
    (xs : list A) (objects : Store.store) :
  (ca < length objects)%nat ->
  match for_ xs method (Store.object objects ca) with
  | Ok self =>
      Store.for_ xs (fun x => Store.assign ca (fun self => method self x)) objects
      = (Ok tt, <[ca := self]> objects)
  | Raise e =>
      (Store.for_ xs (fun x => Store.assign ca (fun self => method self x))
         objects).1
      = Raise e
  end.
Proof.
  revert objects. induction xs as [|x xs IH]; intros objects Hca.
  - cbn [for_ Store.for_]. unfold Store.ret, Store.object, Store.store, Store.ref in *.
    destruct (lookup_lt_is_Some_2 objects ca Hca) as [self Hself].
    rewrite Hself. cbn [default]. by rewrite list_insert_id.
  - cbn [for_ Store.for_]. rewrite store_bind_eq, assign_eq.
    destruct (method (Store.object objects ca) x) as [self|e]; [|done].
    cbn [mbind result_bind].
    assert (ca < length (<[ca := self]> objects))%nat as Hca'.
    { unfold Store.store, Store.ref in *. by rewrite length_insert. }
    specialize (IH (<[ca := self]> objects) Hca').
    rewrite object_assigned in IH by done.
    destruct (for_ xs method self) as [self'|e]; [|done].
    rewrite IH. f_equal. unfold Store.store, Store.ref in *.
    apply list_insert_insert_eq.
Qed.

(** A call made with any objects in the store returns what the function
    of the four arguments gives: the call works on the object it creates
    and reads no other. *)
Lemma call_in_store (input_data : string) (density : Float64.float)
    (signal_state : string) (urgency : Z) (objects : Store.store) :
  (Store.traffic_adaptive_hash input_data density signal_state urgency objects).1
  = traffic_adaptive_hash input_data density signal_state urgency.
Proof.
  unfold Store.traffic_adaptive_hash, traffic_adaptive_hash.
  rewrite store_bind_eq. unfold Store.new.
  rewrite store_bind_eq, assign_eq, object_new.
  destruct (init_state (init 256) (encode_utf8 input_data) density) as [ca|e];
    [|done].
  cbn [mbind result_bind].
  rewrite store_bind_eq. unfold Store.lift.
  destruct (calculate_evolution_steps density urgency) as [steps|e]; [|done].
  cbn [mbind result_bind].
  rewrite store_bind_eq.
  match goal with |- context [Store.for_ _ _ ?o] => set (objects' := o) end.
  assert (length objects < length objects')%nat as Hca.
  { subst objects'. unfold Store.store, Store.ref in *.
    rewrite length_insert, length_app. cbn. lia. }
  assert (Store.object objects' (length objects) = ca) as Hobj.
  { subst objects'. apply object_assigned.
    unfold Store.store in *. rewrite length_app. cbn. lia. }
  pose proof (for_assign (length objects)
                (fun (self : t) (_ : Z) =>
                   evolve self (select_traffic_rule density signal_state)
                     (adapt_neighborhood signal_state))
                (Py.range 0 steps) objects' Hca) as Hloop.
  rewrite Hobj in Hloop. cbn beta in Hloop.
  destruct (for_ (Py.range 0 steps) _ ca) as [ca'|e].
  - rewrite Hloop. rewrite store_bind_eq. unfold Store.read.
    rewrite object_assigned by exact Hca.
    cbn [mbind result_bind]. destruct (get_hash ca' steps); reflexivity.
  - destruct (Store.for_ _ _ objects') as [[u|e'] objects''];
      cbn [fst] in Hloop; [done|]. by injection Hloop as ->.
Qed.

(** C8: [traffic_adaptive_hash] is deterministic. Two calls with the same
    arguments return the same result, whatever objects the running
    program holds at each call, and so also when the second call is made
    after the first, with the object of the first still in the store; for
    a density in [0, 1] that result is one string of 64 characters. *)
Theorem hash_deterministic (input_data : string) (density : Float64.float)
    (signal_state : string) (urgency : Z) (objects1 objects2 : Store.store) :
  let call :=
    Store.traffic_adaptive_hash input_data density signal_state urgency in
  (call objects1).1 = (call objects2).1
  /\ (call (call objects1).2).1 = (call objects1).1
  /\ (Float64.in_unit density = true ->
      exists h,
        (call objects1).1 = Ok h /\ (call objects2).1 = Ok h
        /\ String.length h = 64%nat).
Proof.
  intros call. subst call. rewrite !call_in_store.
  split; [done|]. split; [done|].
  intros Hd.
  destruct (hash_ok input_data density signal_state urgency Hd)
    as (bs & Hbs & Hlen).
  exists (hex bs). split; [done|]. split; [done|].
  rewrite length_hex, Hlen. done.
Qed.

Lemma hash_deterministic_witness :
  let call := Store.traffic_adaptive_hash "" Float64.f0_0 "GREEN" 0 in
  let objects2 := [Build 256 (Py.mul [1] 256) 184 5; init 8] in
  (call []).1 = (call objects2).1
  /\ (call (call []).2).1 = (call []).1
  /\ exists h,
       (call []).1 = Ok h /\ (call objects2).1 = Ok h
       /\ String.length h = 64%nat.
Proof.
  destruct (hash_deterministic "" Float64.f0_0 "GREEN" 0 []
              [Build 256 (Py.mul [1] 256) 184 5; init 8])
    as (Hsame & Hrepeated & Hformat).
  split; [exact Hsame|]. split; [exact Hrepeated|]. exact (Hformat eq_refl).
Defined.

(** ** The Seeder and long inputs *)

(** C10: for every input of at least 32 bytes the seeded state is the
    first 256 bits of the input, whatever the density: two densities give
    the same state. *)
Theorem seeder_ignores_density (data : bytes) (d1 d2 : Float64.float) :
  32 <= Py.len data ->
  init_state (init 256) data d1 = init_state (init 256) data d2
  /\ exists ca,
       init_state (init 256) data d1 = Ok ca
       /\ state ca = take 256 (data ≫= byte_bits)
       /\ Spec.BitVector (state ca).
Proof.
  intros Hlen. rewrite !init_state_long by (cbn [size init]; lia).
  split; [reflexivity|]. eexists. split; [reflexivity|].
  cbn [state set_state size init].
  split; [by rewrite append_bits_flat|].
  split.
  - rewrite length_take, length_append_bits. unfold Py.len in Hlen. lia.
  - apply Forall_take, append_bits_are_bits.
Qed.

Lemma seeder_ignores_density_witness :
  let data := encode_utf8 "block_12345_timestamp_1699800000" in
  init_state (init 256) data Float64.f0_3 = init_state (init 256) data Float64.f0_7
  /\ exists ca,
       init_state (init 256) data Float64.f0_3 = Ok ca
       /\ state ca = take 256 (data ≫= byte_bits)
       /\ Spec.BitVector (state ca).
Proof.
  apply (seeder_ignores_density
           (encode_utf8 "block_12345_timestamp_1699800000")
           Float64.f0_3 Float64.f0_7).
  vm_compute. discriminate.
Defined.

(** ** Values outside the expected ranges *)

(** Case analysis on every comparison of strings in the goal. *)
Ltac case_eqb :=
  repeat match goal with
         | |- context [String.eqb ?s ?t] =>
             destruct (String.eqb_spec s t); [tauto|]
         end.

Lemma unrecognized_radius (signal_state : string) :
  ~ recognized signal_state -> adapt_neighborhood signal_state = 1.
Proof.
  unfold recognized, adapt_neighborhood. intros H.
  case_eqb. reflexivity.
Qed.

Lemma unrecognized_rule (density : Float64.float) (signal_state : string) :
  ~ recognized signal_state ->
  select_traffic_rule density signal_state
  = if Float64.ltb density Float64.f0_3 then 90
    else if Float64.ltb density Float64.f0_7 then 90 else 184.
Proof.
  unfold recognized, select_traffic_rule. intros H.
  case_eqb. reflexivity.
Qed.

(** Counterexample to C4 as stated: with the empty text, the density 2.0
    makes the seed byte 510 and the call raises [ValueError]; the urgency
    11 gives 174 steps, not the 164 of urgency 10; and the urgency -7
    gives a negative step count, hence no generation at all and a hash
    that is not the one of urgency 0. *)
Lemma density_and_urgency_not_clamped :
  traffic_adaptive_hash "" (Float64.of_Z 2) "GREEN" 0 = Raise ValueError
  /\ Float64.to_int (Float64.mul (Float64.of_Z 2) Float64.f255) = Ok 510
  /\ calculate_evolution_steps Float64.f0_0 11 = Ok 174
  /\ calculate_evolution_steps Float64.f0_0 10 = Ok 164
  /\ calculate_evolution_steps Float64.f0_0 (-7) = Ok (-6)
  /\ traffic_adaptive_hash "" Float64.f0_0 "GREEN" (-7)
     <> traffic_adaptive_hash "" Float64.f0_0 "GREEN" 0.
Proof.
  split; [vm_compute; reflexivity|].
  split; [vm_compute; reflexivity|].
  split; [vm_compute; reflexivity|].
  split; [vm_compute; reflexivity|].
  split; [vm_compute; reflexivity|].
  vm_compute. discriminate.
Qed.

(** C4, amended: for every text, density in [0, 1], integer urgency and
    signal state, [traffic_adaptive_hash] raises no exception, and a signal
    state that is none of GREEN, YELLOW, RED, EMERGENCY is treated as the
    default: radius 1, the rule of the "other states" branches, hence the
    same hash as any other such state. Nothing is clamped: the urgency
    enters the step count as it is given, and for a text of fewer than 32
    bytes a density whose seed [int(density * 255)] is not a byte makes
    the call raise [ValueError]. *)
Theorem hash_total_on_unit_density (input_data : string)
    (density : Float64.float) (signal_state : string) (urgency : Z) :
  Float64.in_unit density = true ->
  is_ok (traffic_adaptive_hash input_data density signal_state urgency)
  /\ calculate_evolution_steps density urgency
     = Ok (Z.min 256 (64 + Qfloor (Float64.to_Q density * 64) + urgency * 10))
  /\ (~ recognized signal_state ->
      adapt_neighborhood signal_state = 1
      /\ select_traffic_rule density signal_state
         = (if Float64.ltb density Float64.f0_3 then 90
            else if Float64.ltb density Float64.f0_7 then 90 else 184)
      /\ forall other, ~ recognized other ->
           traffic_adaptive_hash input_data density signal_state urgency
           = traffic_adaptive_hash input_data density other urgency)
  /\ (forall wide seed,
        Py.len (encode_utf8 input_data) < 32 ->
        Float64.to_int (Float64.mul wide Float64.f255) = Ok seed ->
        ~ 0 <= seed < 256 ->
        traffic_adaptive_hash input_data wide signal_state urgency
        = Raise ValueError).
Proof.
  intros Hd. split; [|split; [|split]].
  - destruct (hash_ok input_data density signal_state urgency Hd) as (bs & Hbs & _).
    by exists (hex bs).
  - by apply steps_formula.
  - intros Hs. split; [by apply unrecognized_radius|].
    split; [by apply unrecognized_rule|].
    intros other Ho. unfold traffic_adaptive_hash.
    by rewrite !unrecognized_radius, !unrecognized_rule.
  - intros wide seed Hlen Hseed Hrange. unfold traffic_adaptive_hash.
    rewrite (init_state_bad_seed _ _ _ seed); [done| |done|done].
    cbn [size init]. lia.
Qed.

Lemma hash_total_on_unit_density_witness :
  is_ok (traffic_adaptive_hash "" Float64.f1_0 "BLUE" 25)
  /\ calculate_evolution_steps Float64.f1_0 25
     = Ok (Z.min 256 (64 + Qfloor (Float64.to_Q Float64.f1_0 * 64) + 25 * 10))
  /\ (~ recognized "BLUE" ->
      adapt_neighborhood "BLUE" = 1
      /\ select_traffic_rule Float64.f1_0 "BLUE"
         = (if Float64.ltb Float64.f1_0 Float64.f0_3 then 90
            else if Float64.ltb Float64.f1_0 Float64.f0_7 then 90 else 184)
      /\ forall other, ~ recognized other ->
           traffic_adaptive_hash "" Float64.f1_0 "BLUE" 25
           = traffic_adaptive_hash "" Float64.f1_0 other 25)
  /\ (forall wide seed,
        Py.len (encode_utf8 "") < 32 ->
        Float64.to_int (Float64.mul wide Float64.f255) = Ok seed ->
        ~ 0 <= seed < 256 ->
        traffic_adaptive_hash "" wide "BLUE" 25 = Raise ValueError).
Proof.
  apply (hash_total_on_unit_density "" Float64.f1_0 "BLUE" 25). reflexivity.
Defined.

(** ** Aggregation of the signal states of an intersection *)

Lemma in_values_In (x : string) (d : list (string * string)) :
  in_values x d = true <-> In x d.*2.
Proof.
  unfold in_values. rewrite existsb_exists. split.
  - intros (y & Hy & ->%String.eqb_eq). done.
  - intros H. exists x. split; [done|apply String.eqb_refl].
Qed.

(** C9: the overall signal state that [intersection_hash] computes and
    passes to [traffic_adaptive_hash] is RED, YELLOW or GREEN, never
    EMERGENCY; it is GREEN whenever no direction is RED or YELLOW, for
    instance when all are EMERGENCY. *)
Theorem intersection_overall_state
    (format_input : string -> Z -> list (string * string)
                    -> list (string * Z) -> Float64.float -> string)
    (intersection_id : string) (timestamp : Z)
    (signal_states : list (string * string))
    (vehicle_counts : list (string * Z)) (weather_factor : Float64.float) :
  let aggregate := overall_state signal_states in
  (aggregate = "RED"%string \/ aggregate = "YELLOW"%string
   \/ aggregate = "GREEN"%string)
  /\ aggregate <> "EMERGENCY"%string
  /\ (~ In "RED"%string signal_states.*2 ->
      ~ In "YELLOW"%string signal_states.*2 ->
      aggregate = "GREEN"%string)
  /\ overall_state [("north", "EMERGENCY"); ("south", "EMERGENCY");
                    ("east", "EMERGENCY"); ("west", "EMERGENCY")]%string
     = "GREEN"%string
  /\ intersection_hash format_input intersection_id timestamp signal_states
       vehicle_counts weather_factor
     = (let total_vehicles := foldl Z.add 0 vehicle_counts.*2 in
        density ← adjusted_density total_vehicles weather_factor;
        urgency ← intersection_urgency total_vehicles;
        traffic_adaptive_hash
          (format_input intersection_id timestamp signal_states
             vehicle_counts weather_factor)
          density aggregate urgency).
Proof.
  intros aggregate. subst aggregate. unfold overall_state.
  split; [|split; [|split; [|split]]].
  - destruct (in_values "RED" signal_states); [tauto|].
    destruct (in_values "YELLOW" signal_states); tauto.
  - destruct (in_values "RED" signal_states); [discriminate|].
    destruct (in_values "YELLOW" signal_states); discriminate.
  - intros Hr Hy.
    destruct (in_values "RED" signal_states) eqn:Er.
    { apply in_values_In in Er. tauto. }
    destruct (in_values "YELLOW" signal_states) eqn:Ey.
    { apply in_values_In in Ey. tauto. }
    reflexivity.
  - reflexivity.
  - reflexivity.
Qed.

Lemma intersection_overall_state_witness :
  let signal_states := [("north", "EMERGENCY"); ("south", "GREEN")]%string in
  let aggregate := overall_state signal_states in
  (aggregate = "RED"%string \/ aggregate = "YELLOW"%string
   \/ aggregate = "GREEN"%string)
  /\ aggregate <> "EMERGENCY"%string
  /\ (~ In "RED"%string signal_states.*2 ->
      ~ In "YELLOW"%string signal_states.*2 ->
      aggregate = "GREEN"%string)
  /\ overall_state [("north", "EMERGENCY"); ("south", "EMERGENCY");
                    ("east", "EMERGENCY"); ("west", "EMERGENCY")]%string
     = "GREEN"%string
  /\ intersection_hash (fun id _ _ _ _ => id) "Main-1st" 1699800000 signal_states
       [("north", 15); ("south", 8)]%string Float64.f1_0
     = (let total_vehicles := foldl Z.add 0 [("north", 15); ("south", 8)]%string.*2 in
        density ← adjusted_density total_vehicles Float64.f1_0;
        urgency ← intersection_urgency total_vehicles;
        traffic_adaptive_hash "Main-1st" density aggregate urgency).
Proof.
  apply (intersection_overall_state (fun id _ _ _ _ => id) "Main-1st" 1699800000
           [("north", "EMERGENCY"); ("south", "GREEN")]%string
           [("north", 15); ("south", 8)]%string Float64.f1_0).
Defined.

(** * Further properties of the code *)

(** ** Bits and bytes *)

Lemma take_byte_bits (data : bytes) (k : nat) :
  take (8 * k) (data ≫= byte_bits) = take k data ≫= byte_bits.
Proof.
  revert k; induction data as [|b data IH]; intros k.
  - rewrite take_nil. cbn [mbind list_bind]. apply take_nil.
  - destruct k as [|k]; [done|].
    rewrite bind_cons.
    replace (8 * S k)%nat with (length (byte_bits b) + 8 * k)%nat
      by (rewrite length_byte_bits; lia).
    rewrite take_app_add, IH. by rewrite firstn_cons, bind_cons.
Qed.

Lemma append_bits_bind (data : bytes) :
  append_bits [] data = data ≫= byte_bits.
Proof. by rewrite append_bits_flat. Qed.

Lemma lookup_byte_bits (data : bytes) (i j : nat) (b : byte) :
  data !! i = Some b -> (j < 8)%nat ->
  (data ≫= byte_bits) !! (8 * i + j)%nat = byte_bits b !! j.
Proof.
  revert i; induction data as [|b0 data IH]; intros i Hb Hj; [done|].
  rewrite bind_cons. destruct i as [|i].
  - injection Hb as ->.
    by rewrite lookup_app_l by (rewrite length_byte_bits; lia).
  - rewrite lookup_app_r by (rewrite length_byte_bits; lia).
    rewrite length_byte_bits.
    replace (8 * S i + j - 8)%nat with (8 * i + j)%nat by lia.
    by apply IH.
Qed.

Lemma lookup_byte_bits_None (data : bytes) (k : nat) :
  (8 * length data <= k)%nat -> (data ≫= byte_bits) !! k = None.
Proof.
  intros Hk. apply lookup_ge_None.
  rewrite <- append_bits_bind, length_append_bits. lia.
Qed.

(** ** What [get_hash] packs *)

Lemma cell_or_0_is_bit (st : list Z) (k : Z) :
  Forall Spec.is_bit st -> Spec.is_bit (cell_or_0 st k).
Proof.
  intros Hst. unfold cell_or_0.
  destruct (st !! Z.to_nat k) as [x|] eqn:Hx; [|by left].
  rewrite Forall_lookup in Hst. by apply (Hst _ _ Hx).
Qed.

(** One pass of the inner loop of [get_hash], guard included. *)
Lemma pack_step (st : list Z) (v k s : Z) :
  0 <= k ->
  (if k <? Py.len st
   then bit ← Py.getitem st k; Ok (Z.lor v (Z.shiftl bit s))
   else Ok v)
  = Ok (Z.lor v (Z.shiftl (cell_or_0 st k) s)).
Proof.
  intros Hk. unfold cell_or_0. destruct (Z.ltb_spec k (Py.len st)) as [Hlt|Hge].
  - rewrite getitem_in_range by lia. rewrite list_lookup_total_alt.
    destruct (st !! Z.to_nat k) as [x|] eqn:Hx; [done|].
    apply lookup_ge_None in Hx. unfold Py.len in Hlt. lia.
  - rewrite (lookup_ge_None_2 st) by (unfold Py.len in Hge; lia).
    cbn [default]. by rewrite Z.shiftl_0_l, Z.lor_0_r.
Qed.

Lemma lor_chain_sum (c0 c1 c2 c3 c4 c5 c6 c7 : Z) :
  Spec.is_bit c0 -> Spec.is_bit c1 -> Spec.is_bit c2 -> Spec.is_bit c3 ->
  Spec.is_bit c4 -> Spec.is_bit c5 -> Spec.is_bit c6 -> Spec.is_bit c7 ->
  Z.lor (Z.lor (Z.lor (Z.lor (Z.lor (Z.lor (Z.lor (Z.lor 0
    (Z.shiftl c0 (7 - 0))) (Z.shiftl c1 (7 - 1))) (Z.shiftl c2 (7 - 2)))
    (Z.shiftl c3 (7 - 3))) (Z.shiftl c4 (7 - 4))) (Z.shiftl c5 (7 - 5)))
    (Z.shiftl c6 (7 - 6))) (Z.shiftl c7 (7 - 7))
  = c0 * 128 + c1 * 64 + c2 * 32 + c3 * 16 + c4 * 8 + c5 * 4 + c6 * 2 + c7.
Proof.
  intros [-> | ->] [-> | ->] [-> | ->] [-> | ->]
         [-> | ->] [-> | ->] [-> | ->] [-> | ->]; reflexivity.
Qed.

Lemma pack_byte_packed (self : t) (i : Z) :
  Forall Spec.is_bit (state self) -> 0 <= i ->
  pack_byte self i = Ok (packed (state self) i).
Proof.
  intros Hst Hi. unfold pack_byte.
  change (Py.range 0 8) with [0; 1; 2; 3; 4; 5; 6; 7]. cbn [for_].
  repeat (rewrite pack_step by lia; cbn [mbind result_bind]).
  rewrite lor_chain_sum by (by apply cell_or_0_is_bit).
  unfold packed. rewrite (Z.mul_comm i 8), Z.add_0_r. done.
Qed.

Lemma packed_range (st : list Z) (i : Z) :
  Forall Spec.is_bit st -> 0 <= packed st i < 256.
Proof.
  intros Hst. unfold packed.
  repeat match goal with
         | |- context [cell_or_0 st ?k] =>
             let H := fresh in
             destruct (cell_or_0_is_bit st k Hst) as [H|H]; rewrite H; clear H
         end; lia.
Qed.

Lemma byte_of_int_byte_of_Z (v : Z) :
  0 <= v < 256 ->
  byte_of_int v = Ok (SHA256.byte_of_Z v)
  /\ int_of_byte (SHA256.byte_of_Z v) = v.
Proof.
  intros Hv. destruct (byte_of_int_ok v Hv) as (b & Hb & Hi).
  assert (SHA256.byte_of_Z v = b) as ->; [|done].
  unfold SHA256.byte_of_Z, byte_of_int in *.
  rewrite Z.mod_small by lia.
  destruct ((0 <=? v) && (v <? 256)); [|done].
  destruct (Byte.of_N (Z.to_N v)); [|done]. by injection Hb as ->.
Qed.

(** [get_hash] on a state of bits of any length. *)
Lemma get_hash_packed (self : t) (steps : Z) :
  Forall Spec.is_bit (state self) ->
  get_hash self steps
  = Ok ((fun i => SHA256.byte_of_Z (packed (state self) i)) <$> Py.range 0 32).
Proof.
  intros Hst. unfold get_hash.
  rewrite (for_ext _ _
             (fun l i => v ← Ok (SHA256.byte_of_Z (packed (state self) i));
                         Py.setitem l i v)).
  - by rewrite (for_fill _ (fun i => SHA256.byte_of_Z (packed (state self) i))).
  - intros l i Hi%elem_of_range.
    rewrite pack_byte_packed by (done || lia). cbn [mbind result_bind].
    destruct (byte_of_int_byte_of_Z (packed (state self) i)) as [-> _];
      [by apply packed_range|done].
Qed.

(** X1: on a state of bits, of any length, [get_hash] raises nothing and
    returns 32 bytes; byte [i] packs the cells [8 * i .. 8 * i + 7], the
    first one most significant, a cell beyond the end of the state
    counting for 0. *)
Theorem get_hash_packs_cells (self : t) (steps : Z) :
  Forall Spec.is_bit (state self) ->
  exists bs,
    get_hash self steps = Ok bs
    /\ length bs = 32%nat
    /\ forall i, 0 <= i < 32 ->
         int_of_byte <$> bs !! Z.to_nat i = Some (packed (state self) i).
Proof.
  intros Hst. rewrite get_hash_packed by done.
  eexists. split; [reflexivity|]. split.
  - by rewrite length_fmap, length_range.
  - intros i Hi. unfold Py.range, bytes.
    rewrite list_lookup_fmap, lookup_seqZ_lt by lia. cbn [fmap option_fmap option_map].
    rewrite Z.add_0_l, Z2Nat.id by lia.
    by destruct (byte_of_int_byte_of_Z (packed (state self) i)
                   (packed_range _ _ Hst)) as [_ ->].
Qed.

Lemma get_hash_packs_cells_witness :
  exists bs,
    get_hash (Build 8 [1; 0; 1; 1; 0; 0; 0; 1; 1; 1] 30 1) 0 = Ok bs
    /\ length bs = 32%nat
    /\ forall i, 0 <= i < 32 ->
         int_of_byte <$> bs !! Z.to_nat i
         = Some (packed [1; 0; 1; 1; 0; 0; 0; 1; 1; 1] i).
Proof.
  apply (get_hash_packs_cells (Build 8 [1; 0; 1; 1; 0; 0; 0; 1; 1; 1] 30 1) 0).
  cbn [state]. repeat (constructor; [unfold Spec.is_bit; lia|]). constructor.
Defined.

Lemma packed_byte_bits (b : byte) :
  SHA256.byte_of_Z
    (default 0 (byte_bits b !! 0%nat) * 128 + default 0 (byte_bits b !! 1%nat) * 64
     + default 0 (byte_bits b !! 2%nat) * 32 + default 0 (byte_bits b !! 3%nat) * 16
     + default 0 (byte_bits b !! 4%nat) * 8 + default 0 (byte_bits b !! 5%nat) * 4
     + default 0 (byte_bits b !! 6%nat) * 2 + default 0 (byte_bits b !! 7%nat))
  = b.
Proof. destruct b; vm_compute; reflexivity. Qed.

Lemma packed_append_bits (bs : bytes) (i : nat) (b : byte) :
  bs !! i = Some b ->
  SHA256.byte_of_Z (packed (bs ≫= byte_bits) (Z.of_nat i)) = b.
Proof.
  intros Hb. unfold packed, cell_or_0.
  replace (Z.to_nat (8 * Z.of_nat i)) with (8 * i + 0)%nat by lia.
  replace (Z.to_nat (8 * Z.of_nat i + 1)) with (8 * i + 1)%nat by lia.
  replace (Z.to_nat (8 * Z.of_nat i + 2)) with (8 * i + 2)%nat by lia.
  replace (Z.to_nat (8 * Z.of_nat i + 3)) with (8 * i + 3)%nat by lia.
  replace (Z.to_nat (8 * Z.of_nat i + 4)) with (8 * i + 4)%nat by lia.
  replace (Z.to_nat (8 * Z.of_nat i + 5)) with (8 * i + 5)%nat by lia.
  replace (Z.to_nat (8 * Z.of_nat i + 6)) with (8 * i + 6)%nat by lia.
  replace (Z.to_nat (8 * Z.of_nat i + 7)) with (8 * i + 7)%nat by lia.
  rewrite !(lookup_byte_bits bs i _ b Hb) by lia.
  apply packed_byte_bits.
Qed.

(** [get_hash] inverts the expansion into bits: on the state made of
    the bits of 32 bytes it returns these bytes. *)
Lemma get_hash_of_bits (self : t) (steps : Z) (bs : bytes) :
  length bs = 32%nat -> state self = append_bits [] bs ->
  get_hash self steps = Ok bs.
Proof.
  intros Hlen Hst. rewrite get_hash_packed
    by (rewrite Hst; apply append_bits_are_bits).
  f_equal. rewrite Hst, append_bits_bind. unfold bytes in *.
  apply list_eq. intros k. unfold Py.range.
  rewrite list_lookup_fmap.
  destruct (bs !! k) as [b|] eqn:Hb.
  - pose proof (lookup_lt_Some _ _ _ Hb).
    rewrite lookup_seqZ_lt by lia. cbn [fmap option_fmap option_map].
    rewrite Z.add_0_l. f_equal. by apply packed_append_bits.
  - apply lookup_ge_None in Hb.
    by rewrite lookup_seqZ_ge by lia.
Qed.

(** X2: seeding with an input of at least 32 bytes and reading the
    state back with [get_hash] returns the first 32 bytes of the input:
    [get_hash] inverts the expansion into bits that [init_state]
    performs, whatever the density. *)
Theorem seed_round_trip (data : bytes) (d : Float64.float) :
  32 <= Py.len data ->
  exists ca,
    init_state (init 256) data d = Ok ca
    /\ get_hash ca 0 = Ok (take 32 data).
Proof.
  intros Hlen. rewrite init_state_long by (cbn [size init]; lia).
  eexists. split; [reflexivity|]. apply get_hash_of_bits.
  - rewrite length_take. unfold Py.len in Hlen. lia.
  - cbn [state set_state size init]. rewrite !append_bits_bind.
    change (Z.to_nat 256) with (8 * 32)%nat. by rewrite take_byte_bits.
Qed.

Lemma seed_round_trip_witness :
  let data := encode_utf8 "block_timestamp_1234567890_transactions_data" in
  exists ca,
    init_state (init 256) data Float64.f0_7 = Ok ca
    /\ get_hash ca 0 = Ok (take 32 data).
Proof.
  apply (seed_round_trip
           (encode_utf8 "block_timestamp_1234567890_transactions_data")
           Float64.f0_7).
  vm_compute. discriminate.
Defined.

(** ** The seeded state as bytes *)

Lemma take_mul {A} (l : list A) (k : Z) (n : nat) :
  1 <= k -> (n <= length l)%nat -> take n (Py.mul l k) = take n l.
Proof.
  intros Hk Hn. unfold Py.mul.
  destruct (Z.to_nat k) as [|k'] eqn:Ek; [lia|].
  cbn [replicate mjoin list_join]. by apply take_app_le.
Qed.

Lemma init_state_short_bits (data : bytes) (d : Float64.float) (seed : Z) (b : byte) :
  Py.len data < 32 ->
  Float64.to_int (Float64.mul d Float64.f255) = Ok seed ->
  byte_of_int seed = Ok b ->
  init_state (init 256) data d
  = Ok (set_state (init 256)
          (append_bits [] (take 32 (data ++ SHA256.digest (data ++ [b]))))).
Proof.
  intros Hlen Hseed Hb. unfold init_state.
  assert (Py.len (append_bits [] data) = 8 * Py.len data) as Hl.
  { unfold Py.len. rewrite length_append_bits. lia. }
  rewrite Hl. cbn [size init].
  assert ((8 * Py.len data <? 256) = true) as -> by lia.
  rewrite Hseed. cbn [mbind result_bind].
  unfold bytes_of_ints. cbn [for_]. rewrite Hb. cbn [mbind result_bind app].
  set (dg := SHA256.digest (data ++ [b])).
  assert (length (append_bits [] dg) = 256%nat) as Hp.
  { unfold dg. by rewrite length_append_bits, length_sha256. }
  assert (Py.len (append_bits [] dg) = 256) as -> by (unfold Py.len; lia).
  unfold Py.floordiv. cbn [Z.eqb mbind result_bind].
  assert (0 <= Py.len data) by (unfold Py.len; lia).
  assert (0 <= (256 - 8 * Py.len data) `div` 256) by (apply Z.div_pos; lia).
  rewrite !upto_take by lia. rewrite take_mul by lia.
  f_equal. f_equal.
  rewrite take_ge.
  2:{ rewrite length_app, length_take, length_append_bits, Hp.
      unfold Py.len in *. lia. }
  rewrite take_app_ge by (unfold Py.len in *; lia).
  rewrite !append_bits_bind, bind_app. f_equal.
  rewrite <- take_byte_bits. f_equal. unfold Py.len in *. lia.
Qed.

(** X3: for an input of fewer than 32 bytes and a density in [0, 1], the
    seeded state is the bits of the input followed by the leading bits of
    the SHA-256 digest of the input and the seed byte
    [int(density * 255)]: read back by [get_hash], it is the first 32
    bytes of the input followed by that digest. *)
Theorem seeded_state_short (data : bytes) (d : Float64.float) :
  Py.len data < 32 -> Float64.in_unit d = true ->
  exists seed b ca,
    Float64.to_int (Float64.mul d Float64.f255) = Ok seed
    /\ byte_of_int seed = Ok b
    /\ init_state (init 256) data d = Ok ca
    /\ state ca = append_bits [] data
                  ++ take (256 - 8 * length data)
                          (append_bits [] (SHA256.digest (data ++ [b])))
    /\ get_hash ca 0 = Ok (take 32 (data ++ SHA256.digest (data ++ [b]))).
Proof.
  intros Hlen Hd.
  destruct (density_seed_byte d Hd) as (seed & Hseed & Hrange).
  destruct (byte_of_int_ok seed) as (b & Hb & _); [lia|].
  exists seed, b. eexists. split; [done|]. split; [done|].
  split; [by apply (init_state_short_bits data d seed b)|].
  cbn [state set_state]. split.
  - rewrite take_app_ge by (unfold Py.len in *; lia).
    rewrite !append_bits_bind, bind_app. f_equal.
    rewrite <- take_byte_bits. f_equal. unfold Py.len in *. lia.
  - apply get_hash_of_bits; [|done].
    rewrite length_take, length_app, length_sha256. lia.
Qed.

Lemma seeded_state_short_witness :
  exists seed b ca,
    Float64.to_int (Float64.mul Float64.f0_7 Float64.f255) = Ok seed
    /\ byte_of_int seed = Ok b
    /\ init_state (init 256) (encode_utf8 "abc") Float64.f0_7 = Ok ca
    /\ state ca = append_bits [] (encode_utf8 "abc")
                  ++ take (256 - 8 * length (encode_utf8 "abc"))
                          (append_bits []
                             (SHA256.digest (encode_utf8 "abc" ++ [b])))
    /\ get_hash ca 0
       = Ok (take 32 (encode_utf8 "abc"
                      ++ SHA256.digest (encode_utf8 "abc" ++ [b]))).
Proof.
  apply (seeded_state_short (encode_utf8 "abc") Float64.f0_7);
    [vm_compute | ]; reflexivity.
Defined.

(** ** Inputs that share their first 32 bytes *)

Lemma init_state_prefix (data1 data2 : bytes) (d : Float64.float) :
  32 <= Py.len data1 -> 32 <= Py.len data2 ->
  take 32 data1 = take 32 data2 ->
  init_state (init 256) data1 d = init_state (init 256) data2 d.
Proof.
  intros H1 H2 Heq. rewrite !init_state_long by (cbn [size init]; lia).
  cbn [size init]. rewrite !append_bits_bind.
  change (Z.to_nat 256) with (8 * 32)%nat.
  by rewrite !take_byte_bits, Heq.
Qed.

(** X4: two texts of at least 32 bytes that agree on their first 32
    bytes have the same hash, or raise the same exception, under every
    density, signal state and urgency: nothing after byte 32 of the input
    is ever read. *)
Theorem hash_reads_32_bytes (text1 text2 : string) (d : Float64.float)
    (signal_state : string) (urgency : Z) :
  32 <= Py.len (encode_utf8 text1) -> 32 <= Py.len (encode_utf8 text2) ->
  take 32 (encode_utf8 text1) = take 32 (encode_utf8 text2) ->
  traffic_adaptive_hash text1 d signal_state urgency
  = traffic_adaptive_hash text2 d signal_state urgency.
Proof.
  intros H1 H2 Heq. unfold traffic_adaptive_hash.
  by rewrite (init_state_prefix _ _ d H1 H2 Heq).
Qed.

Lemma hash_reads_32_bytes_witness :
  traffic_adaptive_hash "block_timestamp_1234567890_transactions_data0"
    Float64.f0_7 "RED" 0
  = traffic_adaptive_hash "block_timestamp_1234567890_transactions_data99999"
      Float64.f0_7 "RED" 0.
Proof.
  apply (hash_reads_32_bytes
           "block_timestamp_1234567890_transactions_data0"
           "block_timestamp_1234567890_transactions_data99999"
           Float64.f0_7 "RED" 0); vm_compute; try discriminate; reflexivity.
Defined.

(** ** The all-zero state *)

Lemma foldr_add_zeros {A} (f : A -> Z) (l : list A) :
  (forall x, f x = 0) -> foldr Z.add 0 (f <$> l) = 0.
Proof.
  intros Hf. induction l as [|x l IH]; [done|].
  cbn [fmap list_fmap foldr]. rewrite Hf. exact IH.
Qed.

Lemma new_bit_zeros (rule radius i : Z) :
  Z.even rule = true ->
  Spec.new_bit rule radius (replicate 256 0) i = 0.
Proof.
  intros Hr. unfold Spec.new_bit.
  assert (Spec.window_value (replicate 256 0) i radius = 0) as ->.
  { unfold Spec.window_value. apply foldr_add_zeros. intros offset.
    unfold Spec.cell. rewrite lookup_total_replicate_2; [done|].
    pose proof (Z.mod_pos_bound (i + offset) 256). lia. }
  change (0 `mod` 8) with 0. change (0 `mod` 256) with 0.
  rewrite Z.lxor_0_r. unfold Spec.bit_number.
  rewrite Z.bit0_odd, <- Z.negb_even, Hr. by destruct (radius =? 1).
Qed.

Lemma generation_zeros (rule radius : Z) :
  Z.even rule = true ->
  Spec.generation rule radius (replicate 256 0) = replicate 256 0.
Proof.
  intros Hr. unfold Spec.generation.
  rewrite (const_fmap _ _ 0) by (intros; by apply new_bit_zeros).
  by rewrite length_range.
Qed.

(** X5: the state of 256 zeros is a fixed point of one generation, for
    every even rule (30, 90, 110 and 184 are even) and every radius. *)
Theorem zero_state_fixed (self : t) (rule radius : Z) :
  size self = 256 -> state self = replicate 256 0 -> Z.even rule = true ->
  evolve self rule radius = Ok self.
Proof.
  intros Hsz Hst Hr. rewrite evolve_generation.
  - rewrite Hst, generation_zeros by done. f_equal.
    destruct self. cbn in *. by subst.
  - done.
  - rewrite Hst. split; [done|]. apply Forall_replicate. by left.
Qed.

Lemma zero_state_fixed_witness :
  evolve (init 256) 184 5 = Ok (init 256).
Proof. apply (zero_state_fixed (init 256) 184 5); reflexivity. Defined.

Lemma select_traffic_rule_even (d : Float64.float) (signal_state : string) :
  Z.even (select_traffic_rule d signal_state) = true.
Proof.
  unfold select_traffic_rule.
  repeat match goal with |- context [if ?c then _ else _] => destruct c end;
    reflexivity.
Qed.

(** X6: a text whose first 32 bytes are zero hashes to 64 zeros, for
    every density in [0, 1], signal state and urgency. *)
Theorem hash_of_zero_bytes (text : string) (d : Float64.float)
    (signal_state : string) (urgency : Z) :
  Float64.in_unit d = true ->
  32 <= Py.len (encode_utf8 text) ->
  take 32 (encode_utf8 text) = replicate 32 "000"%byte ->
  traffic_adaptive_hash text d signal_state urgency
  = Ok (hex (replicate 32 "000"%byte)).
Proof.
  intros Hd Hlen Hz. unfold traffic_adaptive_hash.
  rewrite init_state_long by (cbn [size init]; lia).
  cbn [size init mbind result_bind]. rewrite append_bits_bind.
  change (Z.to_nat 256) with (8 * 32)%nat. rewrite take_byte_bits, Hz.
  change (replicate 32 "000"%byte ≫= byte_bits) with (replicate 256 0).
  rewrite steps_formula by done. cbn [mbind result_bind].
  match goal with
  | |- context [for_ ?r ?body ?z] =>
      destruct (for_invariant (fun ca => ca = z) r body z) as (ca & -> & ->);
      [done| |]
  end.
  { intros ca _ _ ->. eexists. split; [|reflexivity].
    rewrite evolve_generation.
    - cbn [state set_state]. rewrite generation_zeros; [done|].
      apply select_traffic_rule_even.
    - done.
    - split; [done|]. apply Forall_replicate. by left. }
  cbn [mbind result_bind].
  by rewrite (get_hash_of_bits _ _ (replicate 32 "000"%byte)).
Qed.

Lemma hash_of_zero_bytes_witness :
  let text := string_of_list_byte (replicate 40 "000"%byte) in
  traffic_adaptive_hash text Float64.f0_7 "EMERGENCY" 10
  = Ok (hex (replicate 32 "000"%byte)).
Proof.
  apply (hash_of_zero_bytes (string_of_list_byte (replicate 40 "000"%byte))
           Float64.f0_7 "EMERGENCY" 10);
    [reflexivity | vm_compute; discriminate | reflexivity].
Defined.

(** ** The step count at its ends *)

(** X7: for a density in [0, 1] the cap of 256 steps is reached from
    urgency 20 on: every larger urgency gives the hash of urgency 20. *)
Theorem urgency_saturates (text : string) (d : Float64.float)
    (signal_state : string) (urgency : Z) :
  Float64.in_unit d = true -> 20 <= urgency ->
  calculate_evolution_steps d urgency = Ok 256
  /\ traffic_adaptive_hash text d signal_state urgency
     = traffic_adaptive_hash text d signal_state 20.
Proof.
  intros Hd Hu.
  destruct (density_factor_floor d Hd) as [_ Hf].
  assert (forall u, 20 <= u -> calculate_evolution_steps d u = Ok 256) as Hs.
  { intros u Hu'. rewrite steps_formula by done. f_equal. lia. }
  split; [by apply Hs|].
  unfold traffic_adaptive_hash. by rewrite (Hs urgency), (Hs 20) by lia.
Qed.

Lemma urgency_saturates_witness :
  calculate_evolution_steps Float64.f0_3 1000 = Ok 256
  /\ traffic_adaptive_hash "abc" Float64.f0_3 "RED" 1000
     = traffic_adaptive_hash "abc" Float64.f0_3 "RED" 20.
Proof.
  apply (urgency_saturates "abc" Float64.f0_3 "RED" 1000); [reflexivity|lia].
Defined.

Lemma range_empty (n : Z) : n <= 0 -> Py.range 0 n = [].
Proof. intros Hn. unfold Py.range. apply seqZ_nil. lia. Qed.

(** X8: for a density in [0, 1] and an urgency of -13 or less the step
    count is negative and no generation is run: the result is the seeded
    state in hexadecimal, which for a text of at least 32 bytes is the
    first 32 bytes of the text itself. *)
Theorem negative_urgency_returns_seed (text : string) (d : Float64.float)
    (signal_state : string) (urgency : Z) :
  Float64.in_unit d = true -> urgency <= -13 ->
  (exists steps, calculate_evolution_steps d urgency = Ok steps /\ steps < 0)
  /\ traffic_adaptive_hash text d signal_state urgency
     = (ca ← init_state (init 256) (encode_utf8 text) d;
        hash_bytes ← get_hash ca 0;
        Ok (hex hash_bytes))
  /\ (32 <= Py.len (encode_utf8 text) ->
      traffic_adaptive_hash text d signal_state urgency
      = Ok (hex (take 32 (encode_utf8 text)))).
Proof.
  intros Hd Hu.
  destruct (density_factor_floor d Hd) as [_ Hf].
  pose proof (steps_formula d urgency Hd) as Hs.
  set (steps := Z.min 256 (64 + Qfloor (Float64.to_Q d * 64) + urgency * 10)) in *.
  assert (steps < 0) as Hneg by (subst steps; lia).
  split; [by exists steps|].
  assert (traffic_adaptive_hash text d signal_state urgency
          = (ca ← init_state (init 256) (encode_utf8 text) d;
             hash_bytes ← get_hash ca 0;
             Ok (hex hash_bytes))) as Hseed.
  { unfold traffic_adaptive_hash.
    destruct (init_state (init 256) (encode_utf8 text) d) as [ca|e]; [|done].
    cbn [mbind result_bind]. rewrite Hs. cbn [mbind result_bind].
    rewrite range_empty by lia. reflexivity. }
  split; [exact Hseed|].
  intros Hlen. rewrite Hseed.
  rewrite init_state_long by (cbn [size init]; lia).
  cbn [size init mbind result_bind].
  rewrite (get_hash_of_bits _ _ (take 32 (encode_utf8 text))); [done| |].
  - rewrite length_take. unfold Py.len in Hlen. lia.
  - cbn [state set_state]. rewrite !append_bits_bind.
    change (Z.to_nat 256) with (8 * 32)%nat. by rewrite take_byte_bits.
Qed.

Lemma negative_urgency_returns_seed_witness :
  let text := "block_12345_timestamp_1699800000"%string in
  (exists steps, calculate_evolution_steps Float64.f0_3 (-20) = Ok steps
                 /\ steps < 0)
  /\ traffic_adaptive_hash text Float64.f0_3 "RED" (-20)
     = (ca ← init_state (init 256) (encode_utf8 text) Float64.f0_3;
        hash_bytes ← get_hash ca 0;
        Ok (hex hash_bytes))
  /\ traffic_adaptive_hash text Float64.f0_3 "RED" (-20)
     = Ok (hex (take 32 (encode_utf8 text))).
Proof.
  destruct (negative_urgency_returns_seed "block_12345_timestamp_1699800000"
              Float64.f0_3 "RED" (-20) eq_refl ltac:(lia))
    as (Hsteps & Hseed & Hlong).
  split; [exact Hsteps|]. split; [exact Hseed|].
  apply Hlong. vm_compute. discriminate.
Defined.

(** ** Densities that are not numbers *)

(** X9: a density that is not a number raises [ValueError] and an
    infinite density raises [OverflowError], whatever the text, the
    signal state and the urgency: in [init_state] for a text of fewer than
    32 bytes, in [calculate_evolution_steps] otherwise. *)
Theorem hash_of_nan_or_infinity (text : string) (signal_state : string)
    (urgency : Z) (sign : bool) :
  traffic_adaptive_hash text S754_nan signal_state urgency = Raise ValueError
  /\ traffic_adaptive_hash text (S754_infinity sign) signal_state urgency
     = Raise OverflowError.
Proof.
  unfold traffic_adaptive_hash, init_state. cbn [size init].
  split; destruct (_ <? 256); reflexivity.
Qed.

(** ** Texts and their bytes *)

Lemma encode_utf8_app (s1 s2 : string) :
  encode_utf8 (s1 ++ s2) = encode_utf8 s1 ++ encode_utf8 s2.
Proof.
  unfold encode_utf8, list_byte_of_string.
  induction s1 as [|c s1 IH]; [done|].
  cbn [String.append list_ascii_of_string map]. by rewrite IH.
Qed.

Lemma length_encode_utf8 (s : string) :
  length (encode_utf8 s) = String.length s.
Proof.
  unfold encode_utf8, list_byte_of_string.
  induction s as [|c s IH]; [done|].
  cbn [list_ascii_of_string map length String.length]. by rewrite IH.
Qed.

Lemma str_of_int_not_empty (n : Z) : (1 <= String.length (str_of_int n))%nat.
Proof.
  unfold str_of_int. destruct (Z.to_int n) as [u|u]; cbn.
  - destruct u; cbn; lia.
  - lia.
Qed.

(** ** The hash of a block *)

(** The urgency of a congestion in [0, 1]. *)
Lemma congestion_urgency (c : Float64.float) :
  Float64.in_unit c = true ->
  exists urgency, Float64.to_int (Float64.mul c f10) = Ok urgency
                  /\ 0 <= urgency <= 10.
Proof.
  intros Hc. destruct (in_unit_cases c Hc) as [[s ->]|(m & e & -> & He & Hm & Hle)].
  - exists 0. split; [done|lia].
  - unfold Float64.mul, f10, SFmul, Float64.prec, Float64.emax.
    cbn [xorb].
    assert (Z.pos (m * 5629499534213120) <= 10 * 2 ^ (0 - (e + -49))) as Hpre.
    { rewrite Pos2Z.inj_mul.
      replace (0 - (e + -49)) with (49 + - e) by lia.
      rewrite Z.pow_add_r by lia. change (2 ^ 49) with 562949953421312.
      pow2_pos (- e). nia. }
    pose proof (round_aux_le (m * 5629499534213120) (e + -49) 10 0
                  ltac:(lia) ltac:(lia) ltac:(lia) Hpre) as H.
    destruct (binary_round_aux 53 1024 false (Z.pos (m * 5629499534213120))
                (e + -49) loc_Exact) as [[|]|s| |[|] m2 e2]; try done.
    + exists 0. split; [done|lia].
    + destruct H as [He2 Hm2].
      eexists. split; [reflexivity|]. cbn [cond_Zopp].
      destruct (Z.leb_spec 0 e2).
      * assert (e2 = 0) as -> by lia.
        change (2 ^ (0 - 0)) with 1 in Hm2. change (2 ^ 0) with 1. lia.
      * pow2_pos (- e2).
        replace (0 - e2) with (- e2) in Hm2 by lia.
        split; [apply Z.div_pos; lia|].
        apply Z.div_le_upper_bound; lia.
Qed.

Section BlockHashProperties.

Context {Tx : Type}.
Variable str_tx : Tx -> string.

(** X10: [block_hash_with_traffic] derives GREEN, YELLOW or RED from the
    congestion, so that it only ever hashes with rule 30 and radius 1, or
    with rule 110 and radius 2 or 3: the rules 90 and 184 and the radius 5
    are out of its reach. For a congestion in [0, 1] the urgency it
    derives lies in [0, 10] and it returns the hexadecimal form of 32
    bytes; for a congestion that is not a number it raises
    [ValueError]. *)
Theorem block_hash_context (block_index : Z) (previous_hash : string)
    (timestamp : Z) (transactions : list Tx) (nonce : Z)
    (network_congestion : Float64.float) :
  let state := congestion_state network_congestion in
  let rule := select_traffic_rule network_congestion state in
  let radius := adapt_neighborhood state in
  ((state = "GREEN"%string /\ rule = 30 /\ radius = 1)
   \/ (state = "YELLOW"%string /\ rule = 110 /\ radius = 2)
   \/ (state = "RED"%string /\ rule = 110 /\ radius = 3))
  /\ (Float64.in_unit network_congestion = true ->
      exists urgency bs,
        Float64.to_int (Float64.mul network_congestion f10) = Ok urgency
        /\ 0 <= urgency <= 10
        /\ block_hash_with_traffic str_tx block_index previous_hash timestamp
             transactions nonce network_congestion
           = Ok (hex bs)
        /\ length bs = 32%nat)
  /\ block_hash_with_traffic str_tx block_index previous_hash timestamp
       transactions nonce S754_nan
     = Raise ValueError.
Proof.
  intros state rule radius. subst state rule radius.
  unfold congestion_state, select_traffic_rule.
  split; [|split].
  - destruct (Float64.ltb network_congestion Float64.f0_3) eqn:H3.
    { left. split; [|split]; reflexivity. }
    destruct (Float64.ltb network_congestion Float64.f0_7) eqn:H7.
    { right; left. split; [|split]; reflexivity. }
    right; right. split; [|split]; reflexivity.
  - intros Hc. destruct (congestion_urgency _ Hc) as (urgency & Hu & Hr).
    unfold block_hash_with_traffic. rewrite Hu. cbn [mbind result_bind].
    destruct (hash_ok
                (block_data str_tx block_index previous_hash timestamp
                   transactions nonce)
                network_congestion (congestion_state network_congestion)
                urgency Hc) as (bs & Hbs & Hlen).
    by exists urgency, bs.
  - reflexivity.
Qed.

(** X11: when the previous hash has at least 31 characters (a hash of
    this module has 64), the block index and the previous hash fill the
    32 bytes that seed the state: the hash of the block does not depend
    on the timestamp, the transactions or the nonce. *)
Theorem block_hash_ignores_nonce (block_index : Z) (previous_hash : string)
    (timestamp timestamp' : Z) (transactions transactions' : list Tx)
    (nonce nonce' : Z) (network_congestion : Float64.float) :
  (31 <= String.length previous_hash)%nat ->
  block_hash_with_traffic str_tx block_index previous_hash timestamp
    transactions nonce network_congestion
  = block_hash_with_traffic str_tx block_index previous_hash timestamp'
      transactions' nonce' network_congestion.
Proof.
  intros Hlen. unfold block_hash_with_traffic.
  destruct (Float64.to_int _) as [urgency|]; [|done]. cbn [mbind result_bind].
  assert (forall tail : string,
            32 <= Py.len (encode_utf8
                            (str_of_int block_index ++ "|" ++ previous_hash ++ tail))
            /\ take 32 (encode_utf8
                          (str_of_int block_index ++ "|" ++ previous_hash ++ tail))
               = take 32 (encode_utf8 (str_of_int block_index)
                          ++ encode_utf8 "|" ++ encode_utf8 previous_hash))
    as Hhead.
  { intros tail. rewrite !encode_utf8_app.
    pose proof (str_of_int_not_empty block_index).
    split.
    - unfold Py.len. rewrite !length_app, !length_encode_utf8. cbn. lia.
    - rewrite !app_assoc. apply take_app_le.
      rewrite !length_app, !length_encode_utf8. cbn. lia. }
  unfold block_data, traffic_adaptive_hash.
  match goal with
  | |- mbind _ (init_state _ (encode_utf8 ?text1) _)
       = mbind _ (init_state _ (encode_utf8 ?text2) _) =>
      rewrite (init_state_prefix (encode_utf8 text1) (encode_utf8 text2)
                 network_congestion); [done|apply Hhead|apply Hhead|]
  end.
  destruct (Hhead ("|" ++ str_of_int timestamp ++ "|"
                   ++ String.concat "|" (str_tx <$> transactions) ++ "|"
                   ++ str_of_int nonce)%string) as [_ ->].
  by destruct (Hhead ("|" ++ str_of_int timestamp' ++ "|"
                      ++ String.concat "|" (str_tx <$> transactions') ++ "|"
                      ++ str_of_int nonce')%string) as [_ ->].
Qed.

End BlockHashProperties.

Lemma block_hash_context_witness :
  let state := congestion_state Float64.f0_7 in
  let rule := select_traffic_rule Float64.f0_7 state in
  let radius := adapt_neighborhood state in
  ((state = "GREEN"%string /\ rule = 30 /\ radius = 1)
   \/ (state = "YELLOW"%string /\ rule = 110 /\ radius = 2)
   \/ (state = "RED"%string /\ rule = 110 /\ radius = 3))
  /\ (exists urgency bs,
        Float64.to_int (Float64.mul Float64.f0_7 f10) = Ok urgency
        /\ 0 <= urgency <= 10
        /\ block_hash_with_traffic (fun tx : string => tx) 1 "00ab" 1699800000
             [] 7 Float64.f0_7
           = Ok (hex bs)
        /\ length bs = 32%nat)
  /\ block_hash_with_traffic (fun tx : string => tx) 1 "00ab" 1699800000
       [] 7 S754_nan
     = Raise ValueError.
Proof.
  destruct (block_hash_context (fun tx : string => tx) 1 "00ab" 1699800000
              [] 7 Float64.f0_7) as (Hctx & Hok & Hnan).
  split; [exact Hctx|]. split; [exact (Hok eq_refl)|exact Hnan].
Defined.

Lemma block_hash_ignores_nonce_witness :
  let previous := hex (replicate 32 "000"%byte) in
  block_hash_with_traffic (fun tx : string => tx) 7 previous 1699800000
    ["a"; "b"]%string 0 Float64.f0_7
  = block_hash_with_traffic (fun tx : string => tx) 7 previous 1699800001
      ["c"]%string 12345 Float64.f0_7.
Proof.
  apply (block_hash_ignores_nonce (fun tx : string => tx) 7
           (hex (replicate 32 "000"%byte)) 1699800000 1699800001
           ["a"; "b"]%string ["c"]%string 0 12345 Float64.f0_7).
  vm_compute. lia.
Defined.

(** ** The mining loop *)

Lemma mining_loop_least (hash_func : string -> result string)
    (target_prefix block_data : string) (len : nat) (a : Z) :
  (forall x, is_ok (hash_func x)) ->
  let hit k := exists h, hash_func (block_data ++ str_of_int k)%string = Ok h
                         /\ startswith h target_prefix = true in
  exists n,
    mining_loop hash_func target_prefix block_data (seqZ a (Z.of_nat len)) = Ok n
    /\ ((n = -1 /\ forall k, a <= k < a + Z.of_nat len -> ~ hit k)
        \/ (a <= n < a + Z.of_nat len /\ hit n
            /\ forall k, a <= k < n -> ~ hit k)).
Proof.
  intros Hok hit. revert a. induction len as [|len IH]; intros a.
  - exists (-1). split; [done|]. left. split; [done|]. intros k Hk. lia.
  - rewrite Nat2Z.inj_succ, seqZ_cons by lia.
    replace (Z.pred (Z.succ (Z.of_nat len))) with (Z.of_nat len) by lia.
    cbn [mining_loop].
    destruct (Hok (block_data ++ str_of_int a)%string) as [h Hh].
    rewrite Hh. cbn [mbind result_bind].
    destruct (startswith h target_prefix) eqn:Hs.
    + exists a. split; [done|]. right. split; [lia|]. split.
      * by exists h.
      * intros k Hk. lia.
    + assert (~ hit a) as Ha.
      { intros (h' & Hh' & Hs'). rewrite Hh in Hh'. injection Hh' as <-.
        by rewrite Hs in Hs'. }
      destruct (IH (Z.succ a)) as (n & Hn & [[-> Hall]|(Hr & Hhit & Hall)]).
      * exists (-1). split; [done|]. left. split; [done|].
        intros k Hk. destruct (decide (k = a)) as [->|]; [done|].
        apply Hall. lia.
      * exists n. split; [done|]. right. split; [lia|]. split; [done|].
        intros k Hk. destruct (decide (k = a)) as [->|]; [done|].
        apply Hall. lia.
Qed.

(** X12: with a hash function that raises nothing, [mining_simulation]
    returns the least nonce of [range(max_nonce)] whose hash starts with
    [difficulty] zeros, and -1 exactly when no nonce of the range has such
    a hash. *)
Theorem mining_finds_least_nonce (hash_func : string -> result string)
    (difficulty max_nonce : Z) :
  (forall x, is_ok (hash_func x)) ->
  exists n,
    mining_simulation hash_func difficulty max_nonce = Ok n
    /\ ((n = -1
         /\ forall k, 0 <= k < max_nonce -> ~ meets_target hash_func difficulty k)
        \/ (0 <= n < max_nonce
            /\ meets_target hash_func difficulty n
            /\ forall k, 0 <= k < n -> ~ meets_target hash_func difficulty k)).
Proof.
  intros Hok. unfold mining_simulation, Py.range, meets_target.
  destruct (Z.le_gt_cases max_nonce 0) as [Hn|Hn].
  - rewrite seqZ_nil by lia. exists (-1). split; [done|]. left.
    split; [done|]. intros k Hk. lia.
  - destruct (mining_loop_least hash_func (str_mul "0" difficulty)
                "block_timestamp_1234567890_transactions_data"
                (Z.to_nat max_nonce) 0 Hok) as (n & Hrun & Hn').
    rewrite Z2Nat.id in Hrun, Hn' by lia.
    replace (max_nonce - 0) with max_nonce by lia.
    exists n. split; [exact Hrun|].
    destruct Hn' as [[-> Hall]|(Hr & Hhit & Hall)].
    + left. split; [done|]. intros k Hk. apply Hall. lia.
    + right. split; [lia|]. split; [exact Hhit|].
      intros k Hk. apply Hall. lia.
Qed.

Lemma mining_finds_least_nonce_witness :
  exists n,
    mining_simulation (fun x => Ok (String.substring 44 1 x)) 1 5 = Ok n
    /\ ((n = -1
         /\ forall k, 0 <= k < 5 ->
              ~ meets_target (fun x => Ok (String.substring 44 1 x)) 1 k)
        \/ (0 <= n < 5
            /\ meets_target (fun x => Ok (String.substring 44 1 x)) 1 n
            /\ forall k, 0 <= k < n ->
                 ~ meets_target (fun x => Ok (String.substring 44 1 x)) 1 k)).
Proof.
  apply (mining_finds_least_nonce (fun x => Ok (String.substring 44 1 x)) 1 5).
  intros x. by eexists.
Defined.

(** A hash function that returns the same result for every nonce. *)
Lemma mining_loop_constant (hash_func : string -> result string)
    (target_prefix block_data : string) (r : result string) (nonces : list Z) :
  (forall k, hash_func (block_data ++ str_of_int k)%string = r) ->
  mining_loop hash_func target_prefix block_data nonces
  = match nonces with
    | [] => Ok (-1)
    | nonce :: _ =>
        h ← r; if startswith h target_prefix then Ok nonce else Ok (-1)
    end.
Proof.
  intros Hr. induction nonces as [|nonce nonces IH]; [done|].
  cbn [mining_loop]. rewrite Hr. destruct r as [h|e]; [|done].
  cbn [mbind result_bind]. destruct (startswith h target_prefix) eqn:Hs; [done|].
  rewrite IH. destruct nonces as [|nonce' nonces]; [done|].
  cbn [mbind result_bind]. by rewrite Hs.
Qed.

(** X13: mining with the automaton's hash never searches. The block text
    of [mining_simulation] has 44 bytes, so every nonce gives the hash of
    the block text alone: the result is nonce 0 when that one hash meets
    the target, and -1 otherwise (also when [max_nonce] is not positive);
    no other nonce is ever returned. *)
Theorem mining_with_automaton_hash (d : Float64.float) (signal_state : string)
    (urgency difficulty max_nonce : Z) :
  mining_simulation (fun x => traffic_adaptive_hash x d signal_state urgency)
    difficulty max_nonce
  = if max_nonce <=? 0 then Ok (-1)
    else
      h ← traffic_adaptive_hash "block_timestamp_1234567890_transactions_data"
            d signal_state urgency;
      if startswith h (str_mul "0" difficulty) then Ok 0 else Ok (-1).
Proof.
  unfold mining_simulation.
  rewrite (mining_loop_constant _ _ _
             (traffic_adaptive_hash
                "block_timestamp_1234567890_transactions_data"
                d signal_state urgency)).
  - destruct (Z.leb_spec max_nonce 0) as [Hn|Hn].
    + by rewrite range_empty.
    + unfold Py.range. by rewrite seqZ_cons by lia.
  - intros k. unfold traffic_adaptive_hash.
    rewrite (init_state_prefix
               (encode_utf8 ("block_timestamp_1234567890_transactions_data"
                             ++ str_of_int k))
               (encode_utf8 "block_timestamp_1234567890_transactions_data") d);
      [done| | |].
    + unfold Py.len. rewrite encode_utf8_app, length_app.
      change (length (encode_utf8 "block_timestamp_1234567890_transactions_data"))
        with 44%nat. lia.
    + vm_compute. discriminate.
    + rewrite encode_utf8_app. apply take_app_le.
      rewrite length_encode_utf8. cbn [String.length]. lia.
Qed.

(** ** Symmetries of a generation *)

(** With radius 5 the rule sees the window value modulo 256 only: the
    cells at offsets -5, -4 and -3 carry the weights 1024, 512 and 256. *)
Lemma window_value_5_low (st : list Z) (i : Z) :
  Spec.window_value st i 5 `mod` 256
  = (Spec.cell st (i + -2) * 128 + Spec.cell st (i + -1) * 64
     + Spec.cell st (i + 0) * 32 + Spec.cell st (i + 1) * 16
     + Spec.cell st (i + 2) * 8 + Spec.cell st (i + 3) * 4
     + Spec.cell st (i + 4) * 2 + Spec.cell st (i + 5)) `mod` 256.
Proof.
  unfold Spec.window_value.
  change (Py.range (Z.opp 5) (5 + 1)) with [-5; -4; -3; -2; -1; 0; 1; 2; 3; 4; 5].
  cbn [fmap list_fmap foldr].
  change (2 ^ (5 - -5)) with 1024. change (2 ^ (5 - -4)) with 512.
  change (2 ^ (5 - -3)) with 256. change (2 ^ (5 - -2)) with 128.
  change (2 ^ (5 - -1)) with 64. change (2 ^ (5 - 0)) with 32.
  change (2 ^ (5 - 1)) with 16. change (2 ^ (5 - 2)) with 8.
  change (2 ^ (5 - 3)) with 4. change (2 ^ (5 - 4)) with 2.
  change (2 ^ (5 - 5)) with 1.
  match goal with |- (?a * 1024 + (?b * 512 + (?c * 256 + ?r))) `mod` 256 = _ =>
    replace (a * 1024 + (b * 512 + (c * 256 + r)))
      with (r + (a * 4 + b * 2 + c) * 256) by ring
  end.
  rewrite Z_mod_plus_full. f_equal. ring.
Qed.

(** X14: with radius 5, the radius of the EMERGENCY state, a cell of the
    next generation depends on eight cells only, those at offsets -2 to 5:
    the three leftmost cells of the eleven that [evolve] reads (offsets
    -5, -4, -3) have no influence on the result. *)
Theorem emergency_window (ca ca' : t) (rule i : Z) :
  well_formed ca -> well_formed ca' -> 0 <= i < 256 ->
  (forall offset, -2 <= offset <= 5 ->
     Spec.cell (state ca) (i + offset) = Spec.cell (state ca') (i + offset)) ->
  exists next next',
    evolve ca rule 5 = Ok next /\ evolve ca' rule 5 = Ok next'
    /\ state next !! Z.to_nat i = state next' !! Z.to_nat i.
Proof.
  intros [Hsz Hst] [Hsz' Hst'] Hi Hcells.
  rewrite !evolve_generation by done.
  eexists _, _. split; [reflexivity|]. split; [reflexivity|].
  cbn [state set_state]. rewrite !lookup_generation by done. f_equal.
  unfold Spec.new_bit. cbn [Z.eqb Pos.eqb].
  assert (Spec.window_value (state ca) i 5 `mod` 256
          = Spec.window_value (state ca') i 5 `mod` 256) as Hw.
  { rewrite !window_value_5_low.
    by rewrite (Hcells (-2)), (Hcells (-1)), (Hcells 0), (Hcells 1),
      (Hcells 2), (Hcells 3), (Hcells 4), (Hcells 5) by lia. }
  assert (forall w, w `mod` 8 = (w `mod` 256) `mod` 8) as H8.
  { intros w. change 256 with (8 * 32).
    rewrite Z.rem_mul_r by lia.
    rewrite Z.mul_comm, Z_mod_plus_full. by rewrite Z.mod_mod by lia. }
  by rewrite (H8 (Spec.window_value (state ca) i 5)),
    (H8 (Spec.window_value (state ca') i 5)), Hw.
Qed.

Lemma emergency_window_witness :
  let ca := set_state (init 256) (<[3%nat := 1]> (Py.mul [0] 256)) in
  let ca' := set_state (init 256) (<[3%nat := 1]> (<[255%nat := 1]> (Py.mul [0] 256))) in
  exists next next',
    evolve ca 184 5 = Ok next /\ evolve ca' 184 5 = Ok next'
    /\ state next !! Z.to_nat 2 = state next' !! Z.to_nat 2.
Proof.
  apply (emergency_window
           (set_state (init 256) (<[3%nat := 1]> (Py.mul [0] 256)))
           (set_state (init 256)
              (<[3%nat := 1]> (<[255%nat := 1]> (Py.mul [0] 256))))
           184 2).
  - split; [reflexivity|]. split; [reflexivity|].
    apply Forall_insert; [|by right].
    apply Forall_mul. repeat constructor.
  - split; [reflexivity|]. split; [reflexivity|].
    apply Forall_insert; [|by right]. apply Forall_insert; [|by right].
    apply Forall_mul. repeat constructor.
  - lia.
  - intros offset Ho.
    assert (offset = -2 \/ offset = -1 \/ offset = 0 \/ offset = 1 \/ offset = 2
            \/ offset = 3 \/ offset = 4 \/ offset = 5) as Hcases by lia.
    destruct Hcases as [->|[->|[->|[->|[->|[->|[->| ->]]]]]]]; reflexivity.
Defined.

(** The cell read at index [j] of a rotated ring. *)
Lemma cell_rotate (k : nat) (st : list Z) (j : Z) :
  length st = 256%nat ->
  Spec.cell (rotate k st) j = Spec.cell st (Z.of_nat k + j).
Proof.
  intros Hl. unfold Spec.cell.
  pose proof (Z.mod_pos_bound j 256 ltac:(lia)) as Hj.
  rewrite !list_lookup_total_alt.
  rewrite lookup_rotate_r by lia. rewrite Hl.
  unfold rotate_nat_add. rewrite Z2Nat.id by lia.
  change (Z.of_nat 256) with 256.
  by rewrite Z.add_mod_idemp_r by lia.
Qed.

Lemma new_bit_rotate (rule radius : Z) (k : nat) (st : list Z) (i : Z) :
  length st = 256%nat ->
  Spec.new_bit rule radius (rotate k st) i
  = Spec.new_bit rule radius st (Z.of_nat k + i).
Proof.
  intros Hl. unfold Spec.new_bit, Spec.window_value.
  assert ((fun offset => Spec.cell (rotate k st) (i + offset) * 2 ^ (radius - offset))
            <$> Py.range (- radius) (radius + 1)
          = (fun offset => Spec.cell st (Z.of_nat k + i + offset) * 2 ^ (radius - offset))
              <$> Py.range (- radius) (radius + 1)) as ->; [|done].
  apply list_fmap_ext. intros n offset _. cbn beta.
  rewrite cell_rotate by done. by rewrite Z.add_assoc.
Qed.

Lemma new_bit_periodic (rule radius : Z) (st : list Z) (i : Z) :
  Spec.new_bit rule radius st (i `mod` 256) = Spec.new_bit rule radius st i.
Proof.
  unfold Spec.new_bit, Spec.window_value.
  assert ((fun offset => Spec.cell st (i `mod` 256 + offset) * 2 ^ (radius - offset))
            <$> Py.range (- radius) (radius + 1)
          = (fun offset => Spec.cell st (i + offset) * 2 ^ (radius - offset))
              <$> Py.range (- radius) (radius + 1)) as ->; [|done].
  apply list_fmap_ext. intros n offset _. cbn beta.
  unfold Spec.cell. by rewrite Z.add_mod_idemp_l by lia.
Qed.

Lemma generation_rotate (rule radius : Z) (k : nat) (st : list Z) :
  length st = 256%nat ->
  Spec.generation rule radius (rotate k st)
  = rotate k (Spec.generation rule radius st).
Proof.
  intros Hl.
  assert (forall st', length (Spec.generation rule radius st') = 256%nat) as Hg.
  { intros st'. unfold Spec.generation. by rewrite length_fmap, length_range. }
  apply list_eq. intros n.
  destruct (decide (n < 256)%nat) as [Hn|Hn].
  - rewrite lookup_rotate_r by (rewrite Hg; lia). rewrite Hg.
    replace n with (Z.to_nat (Z.of_nat n)) at 1 by lia.
    rewrite lookup_generation by lia.
    unfold rotate_nat_add. change (Z.of_nat 256) with 256.
    pose proof (Z.mod_pos_bound (Z.of_nat k + Z.of_nat n) 256 ltac:(lia)).
    rewrite lookup_generation by lia. f_equal.
    by rewrite new_bit_rotate, new_bit_periodic.
  - rewrite !lookup_ge_None_2; [done| |].
    + rewrite length_rotate, Hg. lia.
    + rewrite Hg. lia.
Qed.

(** X15: a generation commutes with a rotation of the ring. Running
    [evolve] on the state rotated by [k] cells gives the rotation by [k]
    cells of what [evolve] gives on the state itself, for every rule and
    every radius: no cell of the ring is treated in a special way. *)
Theorem evolve_rotate (ca : t) (rule radius : Z) (k : nat) :
  well_formed ca ->
  evolve (set_state ca (rotate k (state ca))) rule radius
  = (next ← evolve ca rule radius;
     Ok (set_state next (rotate k (state next)))).
Proof.
  intros [Hsz [Hlen Hbits]].
  rewrite (evolve_generation ca) by done.
  rewrite evolve_generation.
  - cbn [mbind result_bind state set_state]. destruct ca as [sz st rl rd].
    cbn [state set_state size] in *. by rewrite generation_rotate.
  - by destruct ca.
  - destruct ca as [sz st rl rd]. cbn [state set_state] in *. split.
    + by rewrite length_rotate.
    + apply Forall_forall. intros x Hx. apply elem_of_rotate in Hx.
      by eapply Forall_forall in Hbits.
Qed.

Lemma evolve_rotate_witness :
  let ca := set_state (init 256) (<[3%nat := 1]> (Py.mul [0] 256)) in
  evolve (set_state ca (rotate 7 (state ca))) 30 1
  = (next ← evolve ca 30 1; Ok (set_state next (rotate 7 (state next)))).
Proof.
  apply (evolve_rotate
           (set_state (init 256) (<[3%nat := 1]> (Py.mul [0] 256))) 30 1 7).
  split; [reflexivity|]. split; [reflexivity|].
  apply Forall_insert; [|by right].
  apply Forall_mul. repeat constructor.
Defined.

(** ** What the hash reads of its context *)

(** X16: for a text of at least 32 bytes the density, the signal state
    and the urgency act on the hash through the rule, the radius and the
    step count only: two contexts that give the same three values give
    the same hash. *)
Theorem hash_reads_rule_radius_steps (text : string)
    (d1 d2 : Float64.float) (state1 state2 : string) (urgency1 urgency2 : Z) :
  32 <= Py.len (encode_utf8 text) ->
  select_traffic_rule d1 state1 = select_traffic_rule d2 state2 ->
  adapt_neighborhood state1 = adapt_neighborhood state2 ->
  calculate_evolution_steps d1 urgency1 = calculate_evolution_steps d2 urgency2 ->
  traffic_adaptive_hash text d1 state1 urgency1
  = traffic_adaptive_hash text d2 state2 urgency2.
Proof.
  intros Hlen Hrule Hradius Hsteps. unfold traffic_adaptive_hash.
  rewrite !init_state_long by (cbn [size init]; lia).
  by rewrite Hrule, Hradius, Hsteps.
Qed.

Lemma hash_reads_rule_radius_steps_witness :
  let half := Float64.div (Float64.of_Z 1) (Float64.of_Z 2) in
  let above := Float64.div (Float64.of_Z 65) (Float64.of_Z 128) in
  traffic_adaptive_hash "block_12345_timestamp_1699800000" half "GREEN" 0
  = traffic_adaptive_hash "block_12345_timestamp_1699800000" above "BLUE" 0.
Proof.
  apply (hash_reads_rule_radius_steps "block_12345_timestamp_1699800000"
           (Float64.div (Float64.of_Z 1) (Float64.of_Z 2))
           (Float64.div (Float64.of_Z 65) (Float64.of_Z 128))
           "GREEN" "BLUE" 0 0).
  - vm_compute. discriminate.
  - reflexivity.
  - reflexivity.
  - reflexivity.
Defined.

(** ** Edge cases of the intersection hash *)

Lemma mul_nan_r (x : Float64.float) : Float64.mul x S754_nan = S754_nan.
Proof. by destruct x. Qed.

Lemma hash_of_nan (text signal_state : string) (urgency : Z) :
  traffic_adaptive_hash text S754_nan signal_state urgency = Raise ValueError.
Proof.
  unfold traffic_adaptive_hash, init_state. cbn [size init].
  destruct (_ <? 256); reflexivity.
Qed.

(** The sign of a zero density is not seen. *)
Lemma hash_of_signed_zero (text signal_state : string) (urgency : Z) (s : bool) :
  traffic_adaptive_hash text (S754_zero s) signal_state urgency
  = traffic_adaptive_hash text Float64.f0_0 signal_state urgency.
Proof.
  unfold traffic_adaptive_hash, init_state, select_traffic_rule,
    calculate_evolution_steps.
  destruct s; reflexivity.
Qed.

Section IntersectionEdges.

Variable format_input :
  string -> Z -> list (string * string) -> list (string * Z)
  -> Float64.float -> string.

(** X17: a weather factor that is not a number is never hashed:
    [intersection_hash] raises, whatever the other arguments. *)
Theorem intersection_nan_weather (intersection_id : string) (timestamp : Z)
    (signal_states : list (string * string))
    (vehicle_counts : list (string * Z)) :
  exists e,
    intersection_hash format_input intersection_id timestamp signal_states
      vehicle_counts S754_nan
    = Raise e.
Proof.
  unfold intersection_hash, adjusted_density.
  destruct (Float64.of_int _) as [total|e]; [|by exists e].
  cbn [mbind result_bind]. rewrite mul_nan_r.
  change (Float64.min S754_nan Float64.f1_0) with S754_nan.
  destruct (intersection_urgency _) as [urgency|e]; [|by exists e].
  cbn [mbind result_bind]. rewrite hash_of_nan. by exists ValueError.
Qed.

(** X18: an intersection without vehicles is hashed with density 0.0
    and urgency 0, under every weather factor that is a number: the
    weather then acts through the text only, and the call returns the
    hexadecimal form of 32 bytes. *)
Theorem intersection_without_vehicles (intersection_id : string) (timestamp : Z)
    (signal_states : list (string * string))
    (vehicle_counts : list (string * Z)) (weather_factor : Float64.float) :
  foldl Z.add 0 vehicle_counts.*2 = 0 ->
  Float64.is_number weather_factor = true ->
  intersection_hash format_input intersection_id timestamp signal_states
    vehicle_counts weather_factor
  = traffic_adaptive_hash
      (format_input intersection_id timestamp signal_states vehicle_counts
         weather_factor)
      Float64.f0_0 (overall_state signal_states) 0
  /\ exists bs,
       intersection_hash format_input intersection_id timestamp signal_states
         vehicle_counts weather_factor
       = Ok (hex bs)
       /\ length bs = 32%nat.
Proof.
  intros Hsum Hw.
  assert (intersection_hash format_input intersection_id timestamp signal_states
            vehicle_counts weather_factor
          = traffic_adaptive_hash
              (format_input intersection_id timestamp signal_states
                 vehicle_counts weather_factor)
              Float64.f0_0 (overall_state signal_states) 0) as Heq.
  { unfold intersection_hash, adjusted_density. rewrite Hsum.
    change (Float64.of_int 0) with (Ok (S754_zero false) : result Float64.float).
    cbn [mbind result_bind].
    change (Float64.min (Float64.div (S754_zero false) Float64.f40_0) Float64.f1_0)
      with (S754_zero false).
    change (intersection_urgency 0) with (Ok 0 : result Z).
    cbn [mbind result_bind].
    assert (exists s, Float64.mul (S754_zero false) weather_factor = S754_zero s)
      as [s ->].
    { destruct weather_factor as [s|s| |s m e]; try discriminate; by eexists. }
    change (Float64.min (S754_zero s) Float64.f1_0) with (S754_zero s).
    apply hash_of_signed_zero. }
  split; [exact Heq|]. rewrite Heq. by apply hash_ok.
Qed.

End IntersectionEdges.

Lemma intersection_without_vehicles_witness :
  let fmt := fun (id : string) (_ : Z) (_ : list (string * string))
                 (_ : list (string * Z)) (_ : Float64.float) => id in
  let states := [("north", "RED"); ("south", "GREEN")]%string in
  let counts := [("north", 0); ("south", 0)]%string in
  intersection_hash fmt "Main-1st" 1699800000 states counts Float64.f0_7
  = traffic_adaptive_hash "Main-1st" Float64.f0_0 (overall_state states) 0
  /\ exists bs,
       intersection_hash fmt "Main-1st" 1699800000 states counts Float64.f0_7
       = Ok (hex bs)
       /\ length bs = 32%nat.
Proof.
  apply (intersection_without_vehicles
           (fun (id : string) (_ : Z) (_ : list (string * string))
                (_ : list (string * Z)) (_ : Float64.float) => id)
           "Main-1st" 1699800000
           [("north", "RED"); ("south", "GREEN")]%string
           [("north", 0); ("south", 0)]%string Float64.f0_7);
    reflexivity.
Defined.

(** ** Executions of the model *)

(** The floats of the literals 0.3, 0.7 and 1.0, mantissa and exponent. *)
Example literal_bits :
  Float64.f0_3 = S754_finite false 0x13333333333333 (-54)
  /\ Float64.f0_7 = S754_finite false 0x16666666666666 (-53)
  /\ Float64.f1_0 = S754_finite false 0x10000000000000 (-52).
Proof. repeat split. Qed.

(** The end-to-end scenario of the specification: density 0.2 and GREEN
    select rule 30, radius 1 and 76 steps. *)
Example end_to_end_parameters :
  let density := Float64.div (Float64.of_Z 2) (Float64.of_Z 10) in
  select_traffic_rule density "GREEN" = 30
  /\ adapt_neighborhood "GREEN" = 1
  /\ calculate_evolution_steps density 0 = Ok 76.
Proof. vm_compute. repeat split. Qed.

(** Rule 30 from a single live cell: the rows 111, 11001 and 1101111. *)
Example rule_30_rows :
  let single := Build 256 (<[128%nat := 1]> (Py.mul [0] 256)) 30 1 in
  let row ca := take 9 (drop 124 (state ca)) in
  (ca ← evolve single 30 1; Ok (row ca))
  = Ok [0; 0; 0; 1; 1; 1; 0; 0; 0]
  /\ (ca ← evolve single 30 1; ca ← evolve ca 30 1; Ok (row ca))
     = Ok [0; 0; 1; 1; 0; 0; 1; 0; 0]
  /\ (ca ← evolve single 30 1; ca ← evolve ca 30 1; ca ← evolve ca 30 1;
      Ok (row ca))
     = Ok [0; 1; 1; 0; 1; 1; 1; 1; 0].
Proof. vm_compute. repeat split. Qed.

(** On the state whose cell [k] holds [k], the neighbourhoods of the
    cells 0 and 255 wrap around the ring. *)
Example ring_ends :
  let ca := Build 256 (seqZ 0 256) 30 1 in
  neighborhood ca 0 2 = Ok [254; 255; 0; 1; 2]
  /\ neighborhood ca 255 3 = Ok [252; 253; 254; 255; 0; 1; 2].
Proof. vm_compute. repeat split. Qed.

(** The empty text with density 0.0 is seeded with the SHA-256 digest of
    the single byte 0: packed as [get_hash] does, the seeded state is that
    digest. *)
Example empty_text_seed :
  (ca ← init_state (init 256) (encode_utf8 "") Float64.f0_0;
   hash_bytes ← get_hash ca 0; Ok (hex hash_bytes))
  = Ok "6e340b9cffb37a989ca544e6bb780a2c78901d3fb33738768511a30617afa01d"%string.
Proof. vm_compute. reflexivity. Qed.

(** A call leaves its automaton in the store: the next call finds it
    there. *)
Example call_leaves_object :
  length (Store.traffic_adaptive_hash "" Float64.f0_0 "GREEN" (-7) []).2
  = 1%nat.
Proof. vm_compute. reflexivity. Qed.
